(** * Database access layer of [business/data/dbsql/pgx]

    A shallow embedding of [pgx.go]: connection bootstrap ([Open],
    [getSSLMode]), the health check ([StatusCheck]), the three executors
    ([RunQuery], [RunQuerySlice], [RunCUD]) and the diagnostic query
    formatter ([ParseQuery]).

    Conventions.
    - A Go [error] value is a term of the inductive [error]; a nil error is
      [None] in [option error].
    - A Go string is a [string] (a sequence of 8-bit bytes, as in Go).
    - Time is a [Z] count of nanoseconds, like [time.Duration].
    - What the code obtains from its collaborators (the SQL driver, the row
      mapper of sqlx, the named-parameter compiler of sqlx, the renderer of
      net/url) enters as a record of functions or as a section variable. *)

From Stdlib Require Import ZArith List String Ascii Bool Lia.
From Stdlib Require Import Numbers.DecimalString Numbers.DecimalPos.
From Stdlib Require Import Numbers.DecimalZ.
Import ListNotations.

Local Open Scope string_scope.
Local Open Scope Z_scope.

(* ================================================================== *)
(** * Errors *)

(** The error values that travel through the package.  The two sentinels
    made with [errors.New] are compared by identity in Go, so each is a
    constructor of its own: an [errorString] with the same text is a
    different value. *)
#[warnings="-register-all"]
Inductive error : Type :=
| sql_ErrNoRows
| ErrDBDuplicatedEntry
| ErrUndefinedTable
| context_Canceled
| context_DeadlineExceeded
| PgError (Severity Code Message : string)
| errorString (s : string)
| wrapError (msg : string) (err : error)
| wrapErrors (msg : string) (errs : list error).

Definition uniqueViolation : string := "23505".
Definition undefinedTable : string := "42P01".

Definition ErrDBNotFound : error := sql_ErrNoRows.

(** [err.Error()]. *)
Definition Error (e : error) : string :=
  match e with
  | sql_ErrNoRows => "sql: no rows in result set"
  | ErrDBDuplicatedEntry => "duplicated entry"
  | ErrUndefinedTable => "undefined table"
  | context_Canceled => "context canceled"
  | context_DeadlineExceeded => "context deadline exceeded"
  | PgError sev code msg => sev ++ ": " ++ msg ++ " (SQLSTATE " ++ code ++ ")"
  | errorString s => s
  | wrapError msg _ => msg
  | wrapErrors msg _ => msg
  end.

(** What an error made by [fmt.Errorf] with [%w] verbs wraps, in the order
    of the verbs. *)
Definition Unwrap (e : error) : list error :=
  match e with
  | wrapError _ err => [err]
  | wrapErrors _ errs => errs
  | _ => []
  end.

(** A Go pair [(value, err)] of which exactly one side is meaningful. *)
Inductive result (A : Type) : Type :=
| Ok (a : A)
| Err (e : error).
Arguments Ok {A} a.
Arguments Err {A} e.

(* ================================================================== *)
(** * Contexts and the clock *)

Definition Second : Z := 1000000000.

(** A [context.Context] as the health check observes it: its deadline, if
    any, and the instant at which its owner cancels it, if ever. *)
Record Context : Type := mkContext {
  ctxDeadline : option Z;
  ctxCancelAt : option Z
}.

Definition context_Background : Context := mkContext None None.

(** [ctx.Deadline()]: the second component is the [ok] flag. *)
Definition Deadline (ctx : Context) : Z * bool :=
  match ctxDeadline ctx with
  | Some d => (d, true)
  | None => (0, false)
  end.

Definition reached (t : option Z) (now : Z) : bool :=
  match t with
  | Some x => x <=? now
  | None => false
  end.

(** [ctx.Err()] read at instant [now]: the first cause that fired stays. *)
Definition ctxErr (ctx : Context) (now : Z) : option error :=
  match reached (ctxCancelAt ctx) now, reached (ctxDeadline ctx) now with
  | false, false => None
  | true, false => Some context_Canceled
  | false, true => Some context_DeadlineExceeded
  | true, true =>
      match ctxCancelAt ctx, ctxDeadline ctx with
      | Some c, Some d =>
          if c <=? d then Some context_Canceled
          else Some context_DeadlineExceeded
      | _, _ => Some context_Canceled
      end
  end.

(** [context.WithTimeout(parent, d)] called at instant [now]: the child's
    deadline is the earlier of the parent's and [now + d]; it inherits the
    parent's cancellation. *)
Definition context_WithTimeout (parent : Context) (d : Z) (now : Z) : Context :=
  let dl := match ctxDeadline parent with
            | Some p => Z.min p (now + d)
            | None => now + d
            end in
  mkContext (Some dl) (ctxCancelAt parent).

(* ================================================================== *)
(** * Executors *)

Section Executors.

(** [Row] is a driver row, [T] the caller's destination type, [any] the
    type of a named-parameter record. *)
Variables Row T any : Type.

(** [struct{}{}], the parameter record the read paths pass. *)
Variable emptyStruct : any.

(** [new(T)]: the zero value of the destination type. *)
Variable zero : T.

(** [rows.StructScan(dest)] on the current row: the destination after the
    call and the mapper's error.  Fields the row lacks keep what the
    destination held, hence the dependence on the old destination. *)
Variable StructScan : Row -> T -> T * option error.

(** A [*sqlx.Rows] cursor: the rows [Next] will still deliver, and the
    error that ended the iteration, if any ([rows.Err()], which the
    package never reads). *)
Record Rows : Type := mkRows {
  pending : list Row;
  iterErr : option error
}.

(** [sql.Result]. *)
Record Result : Type := mkResult {
  RowsAffected : Z
}.

(** [sqlx.ExtContext] as the executors use it. *)
Record ExtContext : Type := mkExtContext {
  NamedQueryContext : Context -> string -> any -> result Rows;
  NamedExecContext : Context -> string -> any -> result Result
}.

(** [rows.Next()]: whether a row is available, and the cursor advanced
    onto it. *)
Definition Next (rows : Rows) : option (Row * Rows) :=
  match pending rows with
  | [] => None
  | r :: rest => Some (r, mkRows rest (iterErr rows))
  end.

(** [RunQuery]: the returned error and the destination after the call.
    The type assertion of [err] to a [pgconn.PgError] looks at the error
    itself, not through wrappers, as the match on the constructor does.
    The deferred [rows.Close()] releases the cursor and changes neither
    the error nor the destination. *)
Definition RunQuery (ctx : Context) (db : ExtContext) (query : string)
           (dest : T) : option error * T :=
  match NamedQueryContext db ctx query emptyStruct with
  | Err err =>
      match err with
      | PgError _ code _ =>
          if String.eqb code undefinedTable then (Some ErrUndefinedTable, dest)
          else (Some err, dest)
      | _ => (Some err, dest)
      end
  | Ok rows =>
      match Next rows with
      | None => (Some ErrDBNotFound, dest)
      | Some (r, _) =>
          let '(dest', err) := StructScan r dest in
          match err with
          | Some e => (Some e, dest')
          | None => (None, dest')
          end
      end
  end.

(** The [for rows.Next()] loop of [RunQuerySlice], one iteration per row
    that [Next] delivers: [rs] are the rows still pending, [slice] is the
    accumulator; a scan error leaves the function with that error. *)
Fixpoint scanRows (rs : list Row) (slice : list T) : result (list T) :=
  match rs with
  | [] => Ok slice
  | r :: rest =>
      let '(v, err) := StructScan r zero in
      match err with
      | Some e => Err e
      | None => scanRows rest (slice ++ [v])
      end
  end.

(** [RunQuerySlice]: the returned error and [*dest] after the call. *)
Definition RunQuerySlice (ctx : Context) (db : ExtContext) (query : string)
           (dest : list T) : option error * list T :=
  match NamedQueryContext db ctx query emptyStruct with
  | Err err =>
      match err with
      | PgError _ code _ =>
          if String.eqb code undefinedTable then (Some ErrUndefinedTable, dest)
          else (Some err, dest)
      | _ => (Some err, dest)
      end
  | Ok rows =>
      match scanRows (pending rows) [] with
      | Err e => (Some e, dest)
      | Ok slice => (None, slice)
      end
  end.

(** [RunCUD]: the returned error. *)
Definition RunCUD (ctx : Context) (db : ExtContext) (query : string)
           (data : any) : option error :=
  match NamedExecContext db ctx query data with
  | Err err =>
      match err with
      | PgError _ code _ =>
          if String.eqb code undefinedTable then Some ErrUndefinedTable
          else if String.eqb code uniqueViolation then Some ErrDBDuplicatedEntry
          else Some err
      | _ => Some err
      end
  | Ok _ => None
  end.

End Executors.

Arguments mkRows {Row} pending iterErr.
Arguments pending {Row} r.
Arguments iterErr {Row} r.
Arguments mkExtContext {Row any} NamedQueryContext NamedExecContext.
Arguments NamedQueryContext {Row any} e ctx query arg.
Arguments NamedExecContext {Row any} e ctx query arg.
Arguments Next {Row} rows.
Arguments RunQuery {Row T any} emptyStruct StructScan ctx db query dest.
Arguments scanRows {Row T} zero StructScan rs slice.
Arguments RunQuerySlice {Row T any} emptyStruct zero StructScan ctx db query dest.
Arguments RunCUD {Row any} ctx db query data.

(* ================================================================== *)
(** * The world the bootstrap acts on *)

(** What the package does to its collaborators, in the order it does it.
    A ping is logged with the instant it was issued at and its outcome. *)
Inductive Event : Type :=
| EvSqlxOpen (driverName dataSourceName : string)
| EvSetMaxIdleConns (n : Z)
| EvSetMaxOpenConns (n : Z)
| EvSetConnMaxIdleTime (d : Z)
| EvPing (issued : Z) (outcome : option error)
| EvSleep (d : Z)
| EvQueryRow (query : string).

(** The clock and the log of events so far. *)
Record World : Type := mkWorld {
  now : Z;
  trace : list Event
}.

(** A [*sqlx.DB] as the health check uses it.  Each call answers from the
    context and the instant it is issued at, and takes some time. *)
Record DB : Type := mkDB {
  PingContext : Context -> Z -> option error * N;
  QueryRowScan : Context -> string -> Z -> option error * N
}.

(** Computations over the world; [None] stands for a loop that was given
    too little fuel, never for a Go error. *)
Definition M (A : Type) : Type := World -> option (A * World).

Definition ret {A : Type} (a : A) : M A := fun w => Some (a, w).

Definition bind {A B : Type} (m : M A) (k : A -> M B) : M B :=
  fun w => match m w with
           | Some (a, w') => k a w'
           | None => None
           end.

Notation "x <- m ;; k" := (bind m (fun x => k))
  (at level 61, m at next level, right associativity).
Notation "m ;;; k" := (bind m (fun _ => k))
  (at level 61, right associativity).

Definition emit (e : Event) : M unit :=
  fun w => Some (tt, mkWorld (now w) (trace w ++ [e])).

Definition elapse (d : Z) : M unit :=
  fun w => Some (tt, mkWorld (now w + d) (trace w)).

Definition time_Now : M Z := fun w => Some (now w, w).

(** [time.Sleep(d)]: the clock moves on by [d]; a duration of zero or
    less returns at once. *)
Definition time_Sleep (d : Z) : M unit :=
  emit (EvSleep d) ;;; elapse (Z.max 0 d).

(** [db.PingContext(ctx)]. *)
Definition doPing (db : DB) (ctx : Context) : M (option error) :=
  t <- time_Now ;;
  let '(err, took) := PingContext db ctx t in
  emit (EvPing t err) ;;;
  elapse (Z.of_N took) ;;;
  ret err.

(** [db.QueryRowContext(ctx, q).Scan(&tmp)]. *)
Definition doQueryRowScan (db : DB) (ctx : Context) (q : string)
  : M (option error) :=
  emit (EvQueryRow q) ;;;
  t <- time_Now ;;
  let '(err, took) := QueryRowScan db ctx q t in
  elapse (Z.of_N took) ;;;
  ret err.

(** [ctx.Err()] at the current instant.  The clock of the model moves in
    the calls to the pool and in the sleeps only: reading the context,
    like every statement between two such calls, is charged no time. *)
Definition doCtxErr (ctx : Context) : M (option error) :=
  t <- time_Now ;;
  ret (ctxErr ctx t).

(* ================================================================== *)
(** * StatusCheck *)

(** [fmt.Errorf("%w : database: %w", ctxErr, pingError)]. *)
Definition pingFailure (ce pe : error) : error :=
  wrapErrors (Error ce ++ " : database: " ++ Error pe) [ce; pe].

(** The retry loop of [StatusCheck]: [Some e] is the error the function
    returns from inside the loop, [None] is the [break] after a successful
    ping.  One unit of fuel per iteration.  [attempts] is an [int] and the
    product a [time.Duration] in Go; both are unbounded integers here,
    and [StatusCheck_in_machine_range] below shows that neither leaves
    its machine range when the deadline is a [time.Duration] away. *)
Fixpoint pingLoop (fuel : nat) (db : DB) (ctx : Context) (attempts : Z)
  : M (option error) :=
  match fuel with
  | O => fun _ => None
  | S fuel' =>
      pingError <- doPing db ctx ;;
      match pingError with
      | None => ret None
      | Some pe =>
          time_Sleep (attempts * 1 * Second) ;;;
          ce <- doCtxErr ctx ;;
          match ce with
          | Some ce => ret (Some (pingFailure ce pe))
          | None => pingLoop fuel' db ctx (attempts + 1)
          end
      end
  end.

(** The context [StatusCheck] works with: the caller's when it carries a
    deadline, otherwise a child that expires five seconds from now. *)
Definition withDefaultDeadline (ctx : Context) : M Context :=
  if snd (Deadline ctx) then ret ctx
  else (t <- time_Now ;; ret (context_WithTimeout ctx (Second * 5) t)).

Definition StatusCheck (fuel : nat) (ctx : Context) (db : DB)
  : M (option error) :=
  ctx <- withDefaultDeadline ctx ;;
  r <- pingLoop fuel db ctx 1 ;;
  match r with
  | Some e => ret (Some e)
  | None =>
      ce <- doCtxErr ctx ;;
      match ce with
      | Some ce => ret (Some ce)
      | None => doQueryRowScan db ctx "SELECT true"
      end
  end.

(** Unfolds the operations on the world down to pairs. *)
Ltac run_world :=
  unfold time_Sleep, doPing, doCtxErr, doQueryRowScan;
  unfold emit, elapse, time_Now; unfold bind, ret; simpl.

(** ** Vocabulary for the statements about [StatusCheck] *)

(** The context [withDefaultDeadline] yields when called at instant [t]. *)
Definition effectiveCtx (ctx : Context) (t : Z) : Context :=
  if snd (Deadline ctx) then ctx else context_WithTimeout ctx (Second * 5) t.

(** A probe that fails whenever and under whatever context it is issued. *)
Definition alwaysFails (db : DB) : Prop :=
  forall ctx t, fst (PingContext db ctx t) <> None.

(** The events of a run of failed attempts numbered from [a]: each probe,
    given by the instant it was issued at and its error, is followed by a
    sleep of as many seconds as the number of the attempt. *)
Fixpoint retryTrace (a : Z) (probes : list (Z * error)) : list Event :=
  match probes with
  | [] => []
  | (t, pe) :: rest =>
      EvPing t (Some pe) :: EvSleep (a * 1 * Second) :: retryTrace (a + 1) rest
  end.

(** The sleeps of [k] attempts numbered from [a], added up. *)
Fixpoint backoffTotal (a : Z) (k : nat) : Z :=
  match k with
  | O => 0
  | S k' => a * 1 * Second + backoffTotal (a + 1) k'
  end.

(** The largest [time.Duration], and the largest [int] of a platform
    whose [int] has 32 bits. *)
Definition maxDuration : Z := 2 ^ 63 - 1.
Definition maxInt32 : Z := 2 ^ 31 - 1.

(** A sleep of [n] seconds for an attempt number [n] that fits an [int],
    with a duration that fits a [time.Duration]; true of every other
    event. *)
Definition sleepInRange (ev : Event) : Prop :=
  match ev with
  | EvSleep d =>
      exists n, d = n * 1 * Second /\ 1 <= n <= maxInt32 /\ 0 < d <= maxDuration
  | _ => True
  end.

(** The error of the last probe of a run. *)
Definition lastError (probes : list (Z * error)) : option error :=
  List.last (map (fun p => Some (snd p)) probes) None.

(* ================================================================== *)
(** * The part of net/url that [Open] uses *)

Definition inString (c : ascii) (s : string) : bool :=
  existsb (Ascii.eqb c) (list_ascii_of_string s).

Definition isAlnum (c : ascii) : bool :=
  let n := N_of_ascii c in
  ((97 <=? n) && (n <=? 122) || (65 <=? n) && (n <=? 90)
   || (48 <=? n) && (n <=? 57))%N.

(** [shouldEscape(c, encodeQueryComponent)]: letters, digits and the four
    marks stay; every other byte is escaped. *)
Definition shouldEscape (c : ascii) : bool :=
  negb (isAlnum c || inString c "-_.~").

Definition hexDigit (digits : string) (n : N) : ascii :=
  match String.get (N.to_nat n) digits with
  | Some c => c
  | None => "0"%char
  end.

Definition upperhex : string := "0123456789ABCDEF".

(** [url.QueryEscape]. *)
Fixpoint QueryEscape (s : string) : string :=
  match s with
  | EmptyString => EmptyString
  | String c rest =>
      if Ascii.eqb c " " then String "+" (QueryEscape rest)
      else if shouldEscape c then
        String "%" (String (hexDigit upperhex (N_of_ascii c / 16))
                   (String (hexDigit upperhex (N_of_ascii c mod 16))
                      (QueryEscape rest)))
      else String c (QueryEscape rest)
  end.

(** [url.Values]: each key once, with its values. *)
Definition Values : Type := list (string * list string).

Definition make_Values : Values := [].

(** [v.Set(key, value)]: the key's values become the single [value]. *)
Fixpoint Values_Set (v : Values) (key value : string) : Values :=
  match v with
  | [] => [(key, [value])]
  | (k, vs) :: rest =>
      if String.eqb k key then (k, [value]) :: rest
      else (k, vs) :: Values_Set rest key value
  end.

(** [v.Get(key)]: the first value of the key, or the empty string. *)
Fixpoint Values_Get (v : Values) (key : string) : string :=
  match v with
  | [] => ""
  | (k, vs) :: rest =>
      if String.eqb k key then hd "" vs else Values_Get rest key
  end.

Fixpoint Values_Has (v : Values) (key : string) : bool :=
  match v with
  | [] => false
  | (k, _) :: rest => String.eqb k key || Values_Has rest key
  end.

Fixpoint insertByKey (e : string * list string) (v : Values) : Values :=
  match v with
  | [] => [e]
  | x :: rest =>
      if String.leb (fst e) (fst x) then e :: v
      else x :: insertByKey e rest
  end.

(** [slices.Sort(keys)], carried out on the entries. *)
Definition sortByKey (v : Values) : Values := fold_right insertByKey [] v.

Fixpoint joinWith (sep : string) (parts : list string) : string :=
  match parts with
  | [] => ""
  | [p] => p
  | p :: rest => p ++ sep ++ joinWith sep rest
  end.

(** [v.Encode()]: [key=value] pairs, escaped, sorted by key, joined by
    an ampersand. *)
Definition Values_Encode (v : Values) : string :=
  joinWith "&"
    (flat_map (fun e => map (fun x => QueryEscape (fst e) ++ "=" ++ QueryEscape x)
                            (snd e))
              (sortByKey v)).

(** [url.Userinfo] as [url.UserPassword] makes it. *)
Record Userinfo : Type := mkUserinfo {
  username : string;
  password : string;
  passwordSet : bool
}.

Definition url_UserPassword (u p : string) : Userinfo := mkUserinfo u p true.

(** [url.URL], the fields [Open] fills in. *)
Record URL : Type := mkURL {
  Scheme : string;
  User_ : option Userinfo;
  Host_ : string;
  Path : string;
  RawQuery : string
}.

(* ================================================================== *)
(** * Open *)

Record Config : Type := mkConfig {
  User : string;
  Password : string;
  Host : string;
  Port : string;
  Name : string;
  Schema : string;
  MaxIdleConns : Z;
  MaxOpenConns : Z;
  IdleConnTimeout : Z;
  EnableTLS : bool;
  CACert : string;
  ClientCert : string;
  ClientKey : string;
  ApplicationName : string
}.

Definition isEmpty (s : string) : bool := String.eqb s "".

Definition getSSLMode (cfg : Config) : result string :=
  if negb (EnableTLS cfg) then Ok "disable"
  else if isEmpty (CACert cfg) || isEmpty (ClientCert cfg)
          || isEmpty (ClientKey cfg)
  then Err (errorString "SSL certificates not properly configured")
  else Ok "require".

(** The query parameters of the connection target (the [q] of [Open]). *)
Definition connValues (cfg : Config) (sslMode : string) : Values :=
  let q := make_Values in
  let q := Values_Set q "sslmode" sslMode in
  let q := Values_Set q "timezone" "utc" in
  let q := Values_Set q "application_name" (ApplicationName cfg) in
  let q := if EnableTLS cfg then
             let q := Values_Set q "sslrootcert" (CACert cfg) in
             let q := Values_Set q "sslcert" (ClientCert cfg) in
             Values_Set q "sslkey" (ClientKey cfg)
           else q in
  if negb (isEmpty (Schema cfg)) then Values_Set q "search_path" (Schema cfg)
  else q.

(** The connection target (the [u] of [Open]). *)
Definition connURL (cfg : Config) (sslMode : string) : URL :=
  mkURL "postgres"
        (Some (url_UserPassword (User cfg) (Password cfg)))
        (Host cfg ++ ":" ++ Port cfg)
        (Name cfg)
        (Values_Encode (connValues cfg sslMode)).

Section Bootstrap.

(** [u.String()] of net/url. *)
Variable URL_String : URL -> string.

(** [sqlx.Open(driverName, dataSourceName)]: the pool handle the driver
    hands out for a connection string, or its error. *)
Variable sqlx_Open : string -> string -> result DB.

Definition doSqlxOpen (driverName dsn : string) : M (result DB) :=
  emit (EvSqlxOpen driverName dsn) ;;;
  ret (sqlx_Open driverName dsn).

Definition Open (fuel : nat) (cfg : Config) : M (result DB) :=
  match getSSLMode cfg with
  | Err err => ret (Err err)
  | Ok sslMode =>
      let u := connURL cfg sslMode in
      r <- doSqlxOpen "pgx" (URL_String u) ;;
      match r with
      | Err err => ret (Err err)
      | Ok db =>
          emit (EvSetMaxIdleConns (MaxIdleConns cfg)) ;;;
          emit (EvSetMaxOpenConns (MaxOpenConns cfg)) ;;;
          emit (EvSetConnMaxIdleTime (IdleConnTimeout cfg)) ;;;
          let t := Second * 5 in
          start <- time_Now ;;
          let ctx := context_WithTimeout context_Background t start in
          err <- StatusCheck fuel ctx db ;;
          match err with
          | Some err =>
              ret (Err (wrapError ("database status check: " ++ Error err) err))
          | None => ret (Ok db)
          end
      end
  end.

End Bootstrap.

(* ================================================================== *)
(** * Panics

    A call that can panic, in the library or by an index out of range,
    gives [Panic]; none of the functions below recovers, so a panic ends
    the function that meets it. *)

(** A Go computation that returns or panics. *)
Inductive go (A : Type) : Type :=
| Return (a : A)
| Panic.
Arguments Return {A} a.
Arguments Panic {A}.

Definition go_bind {A B : Type} (m : go A) (k : A -> go B) : go B :=
  match m with
  | Return a => k a
  | Panic => Panic
  end.

Notation "x <~ m ;; k" := (go_bind m (fun x => k))
  (at level 61, m at next level, right associativity).

(* ================================================================== *)
(** * ParseQuery *)

Definition tab : ascii := ascii_of_nat 9.
Definition newline : ascii := ascii_of_nat 10.

(** [strings.Replace(s, old, new, n)] for a one-byte [old], which is what
    every call of the package passes: the first [n] occurrences of [old]
    from the left are replaced, all of them when [n] is negative. *)
Fixpoint Replace (s : string) (old : ascii) (new : string) (n : Z) : string :=
  match s with
  | EmptyString => EmptyString
  | String c rest =>
      if n =? 0 then s
      else if Ascii.eqb c old then new ++ Replace rest old new (n - 1)
      else String c (Replace rest old new n)
  end.

(** [strings.ReplaceAll(s, old, new)]. *)
Definition ReplaceAll (s : string) (old : ascii) (new : string) : string :=
  Replace s old new (-1).

Fixpoint trimLeftByte (s : string) (c : ascii) : string :=
  match s with
  | EmptyString => EmptyString
  | String x rest => if Ascii.eqb x c then trimLeftByte rest c else s
  end.

Fixpoint trimRightByte (s : string) (c : ascii) : string :=
  match s with
  | EmptyString => EmptyString
  | String x rest =>
      match trimRightByte rest c with
      | EmptyString => if Ascii.eqb x c then EmptyString else String x EmptyString
      | kept => String x kept
      end
  end.

(** [strings.Trim(s, cutset)] for a one-byte cutset. *)
Definition Trim (s : string) (c : ascii) : string :=
  trimLeftByte (trimRightByte s c) c.

(** [uuid.UUID]: sixteen bytes. *)
Record UUID : Type := mkUUID { uuidBytes : string }.

Definition lowerhex : string := "0123456789abcdef".

Fixpoint hexEncode (s : string) : string :=
  match s with
  | EmptyString => EmptyString
  | String c rest =>
      String (hexDigit lowerhex (N_of_ascii c / 16))
        (String (hexDigit lowerhex (N_of_ascii c mod 16)) (hexEncode rest))
  end.

(** [u.String()]: the form xxxxxxxx-xxxx-xxxx-xxxx-xxxxxxxxxxxx. *)
Definition UUID_String (u : UUID) : string :=
  let h := hexEncode (uuidBytes u) in
  substring 0 8 h ++ "-" ++ substring 8 4 h ++ "-" ++ substring 12 4 h
  ++ "-" ++ substring 16 4 h ++ "-" ++ substring 20 12 h.

(** A value that falls under [default] in the type switch of
    [ParseQuery]: an integer, a boolean, or any other value, which comes
    with the text [%v] prints for it. *)
Inductive plain : Type :=
| vInt (v : Z)
| vBool (v : bool)
| vText (text : string).

(** [fmt.Sprintf("%v", v)] for such a value. *)
Definition Sprint (v : plain) : string :=
  match v with
  | vInt z => NilZero.string_of_int (Z.to_int z)
  | vBool true => "true"
  | vBool false => "false"
  | vText text => text
  end.

(** A bound value, by the cases of the type switch. *)
Inductive param : Type :=
| pString (v : string)
| pBytes (v : string)
| pUUID (v : UUID)
| pOther (v : plain).

(** The [value] the type switch computes for one parameter. *)
Definition paramValue (p : param) : string :=
  match p with
  | pString v => "'" ++ v ++ "'"
  | pBytes v => "'" ++ v ++ "'"
  | pUUID v => "'" ++ UUID_String v ++ "'"
  | pOther v => Sprint v
  end.

(** The [for _, param := range params] loop. *)
Fixpoint bindParams (query : string) (params : list param) : string :=
  match params with
  | [] => query
  | p :: rest => bindParams (Replace query "?" (paramValue p) 1) rest
  end.

(** ** Vocabulary for the statements about [ParseQuery] *)

(** Reading a decimal numeral back. *)
Definition parseInt (s : string) : option Z :=
  option_map Z.of_int (NilZero.int_of_string s).

(** The value of a lower-case hexadecimal digit. *)
Definition hexValue (c : ascii) : option N :=
  let n := N_of_ascii c in
  if ((48 <=? n) && (n <=? 57))%N then Some (n - 48)%N
  else if ((97 <=? n) && (n <=? 102))%N then Some (n - 87)%N
  else None.

(** Reading bytes back from their lower-case hexadecimal form. *)
Fixpoint hexDecode (s : string) : option string :=
  match s with
  | EmptyString => Some EmptyString
  | String hi (String lo rest) =>
      match hexValue hi, hexValue lo, hexDecode rest with
      | Some h, Some l, Some bytes =>
          Some (String (ascii_of_N (16 * h + l)) bytes)
      | _, _, _ => None
      end
  | String _ EmptyString => None
  end.

(** The 32 digits of a [uuid.UUID] in canonical form, hyphens left out. *)
Definition uuidDigits (text : string) : string :=
  substring 0 8 text ++ substring 9 4 text ++ substring 14 4 text
  ++ substring 19 4 text ++ substring 24 12 text.

Definition firstByte (s : string) : option ascii :=
  match s with
  | EmptyString => None
  | String x _ => Some x
  end.

Fixpoint lastByte (s : string) : option ascii :=
  match s with
  | EmptyString => None
  | String x EmptyString => Some x
  | String _ rest => lastByte rest
  end.

(** A query written as its pieces: [s0 ? s1 ? ... ? sn], each placeholder
    paired with the parameter bound to it and the text that follows it. *)
Fixpoint template (s0 : string) (l : list (param * string)) : string :=
  match l with
  | [] => s0
  | (_, s) :: rest => s0 ++ "?" ++ template s rest
  end.

(** The same pieces with every placeholder replaced by its own value. *)
Fixpoint filled (s0 : string) (l : list (param * string)) : string :=
  match l with
  | [] => s0
  | (p, s) :: rest => s0 ++ paramValue p ++ filled s rest
  end.

Section Formatter.

Variable any : Type.

(** [sqlx.Named(query, args)]: the query with its named placeholders
    turned into question marks and the bound values in the order of the
    placeholders, or the error of the name resolution.  The library reads
    the argument by reflection and panics on one it cannot read (a nil
    argument, a value that is neither a struct, a map nor a slice), so
    the call has three outcomes. *)
Variable sqlx_Named : string -> any -> go (result (string * list param)).

(** [ParseQuery] has no [recover]: a panic of the name resolution is a
    panic of [ParseQuery]. *)
Definition ParseQuery (query : string) (args : any) : go string :=
  r <~ sqlx_Named query args ;;
  match r with
  | Err err => Return (Error err)
  | Ok (query, params) =>
      let query := bindParams query params in
      let query := ReplaceAll query tab "" in
      let query := ReplaceAll query newline " " in
      Return (Trim query " ")
  end.

End Formatter.

Arguments ParseQuery {any} sqlx_Named query args.


(* ================================================================== *)
(** * Sample collaborators

    Small concrete drivers, row mappers and configurations on which the
    statements below are exercised. *)

Module Sample.

(** Rows and destinations are integers; a negative row does not map. *)
Definition scan (r : Z) (dest : Z) : Z * option error :=
  if r <? 0 then (dest, Some (errorString "sql: Scan error"))
  else (r, None).

Definition dupKey : error :=
  PgError "ERROR" "23505"
          "duplicate key value violates unique constraint".

Definition noTable : error :=
  PgError "ERROR" "42P01" "relation does not exist".

Definition connRefused : error := errorString "connection refused".

(** A driver that answers by the text of the query. *)
Definition db : ExtContext Z unit :=
  mkExtContext
    (fun _ query _ =>
       if String.eqb query "three" then Ok (mkRows [7; 8; 9] None)
       else if String.eqb query "bad" then Ok (mkRows [7; -1; 9] None)
       else if String.eqb query "none" then Ok (mkRows [] None)
       else if String.eqb query "dup" then Err dupKey
       else if String.eqb query "missing" then Err noTable
       else Err connRefused)
    (fun _ query _ =>
       if String.eqb query "dup" then Err dupKey
       else if String.eqb query "missing" then Err noTable
       else if String.eqb query "noop" then Ok (mkResult 0)
       else if String.eqb query "one" then Ok (mkResult 1)
       else Err connRefused).

(** A pool whose ping always fails after 2 ms. *)
Definition deadPool : DB :=
  mkDB (fun _ _ => (Some connRefused, 2000000%N))
       (fun _ _ _ => (None, 1000000%N)).

(** A pool that answers every ping and query after 1 ms. *)
Definition livePool : DB :=
  mkDB (fun _ _ => (None, 1000000%N))
       (fun _ _ _ => (None, 1000000%N)).

Definition w0 : World := mkWorld 0 [].

(** A context cancelled before the clock of [w0] started. *)
Definition cancelled : Context := mkContext None (Some (-1)).

Definition plain : Config :=
  mkConfig "u" "p" "localhost" "5432" "lab" "" 2 4 (60 * Second)
           false "" "" "" "lab api".

Definition secured : Config :=
  mkConfig "u" "p" "localhost" "5432" "lab" "public" 2 4 (60 * Second)
           true "/ca.pem" "/cert.pem" "/key.pem" "lab api".

Definition halfSecured : Config :=
  mkConfig "u" "p" "localhost" "5432" "lab" "public" 2 4 (60 * Second)
           true "/ca.pem" "" "/key.pem" "lab api".

Definition render (u : URL) : string :=
  Scheme u ++ "://" ++ Host_ u ++ "/" ++ Path u ++ "?" ++ RawQuery u.

Definition opener (_ _ : string) : result DB := Ok deadPool.

(** A name resolution that hands the query and the values back as they
    are: the query is already written with question marks. *)
Definition named (query : string) (args : list param)
  : go (result (string * list param)) := Return (Ok (query, args)).

End Sample.

(* ================================================================== *)
(** * Further vocabulary *)

(** How many times the byte [c] occurs in [s]. *)
Fixpoint countByte (c : ascii) (s : string) : nat :=
  match s with
  | EmptyString => O
  | String x rest => (if Ascii.eqb x c then 1 else 0) + countByte c rest
  end.

(** The bytes [url.QueryEscape] can put out: the unreserved ones, the
    percent sign and the plus sign. *)
Definition escapedByte (c : ascii) : bool :=
  isAlnum c || inString c "-_.~%+".

Fixpoint allBytes (f : ascii -> bool) (s : string) : bool :=
  match s with
  | EmptyString => true
  | String x rest => f x && allBytes f rest
  end.

(** The number of parameters [Open] sets for a configuration. *)
Definition paramCount (cfg : Config) : nat :=
  3 + (if EnableTLS cfg then 3 else 0)
  + (if isEmpty (Schema cfg) then 0 else 1).

(* ================================================================== *)
(** * The maskers of [foundation/mask]

    [maskEmail] and [maskPhone] work on the bytes of their argument, by
    index.  An index expression or a call that panics in Go gives [Panic]
    here. *)

(** [len(s)]. *)
Definition len (s : string) : Z := Z.of_nat (String.length s).

(** [s[lo:hi]]: panics unless [0 <= lo <= hi <= len(s)]. *)
Definition sliceString (s : string) (lo hi : Z) : go string :=
  if (0 <=? lo) && (lo <=? hi) && (hi <=? len s)
  then Return (substring (Z.to_nat lo) (Z.to_nat (hi - lo)) s)
  else Panic.

Fixpoint repeatString (s : string) (n : nat) : string :=
  match n with
  | O => EmptyString
  | S n' => s ++ repeatString s n'
  end.

(** [strings.Repeat(s, count)]: panics on a negative count. *)
Definition Repeat (s : string) (count : Z) : go string :=
  if count <? 0 then Panic else Return (repeatString s (Z.to_nat count)).

(** [strings.Index(s, substr)] for a one-byte [substr]: the index of its
    first occurrence, or -1. *)
Fixpoint Index (s : string) (c : ascii) : Z :=
  match s with
  | EmptyString => -1
  | String x rest =>
      if Ascii.eqb x c then 0
      else let i := Index rest c in
           if i <? 0 then -1 else i + 1
  end.

(** [strings.Split(s, sep)] for a one-byte [sep]: the pieces between the
    occurrences of [sep], one more than there are occurrences. *)
Fixpoint Split (s : string) (sep : ascii) : list string :=
  match s with
  | EmptyString => [EmptyString]
  | String x rest =>
      if Ascii.eqb x sep then EmptyString :: Split rest sep
      else match Split rest sep with
           | [] => [String x EmptyString]
           | piece :: pieces => String x piece :: pieces
           end
  end.

Definition maskEmail (arg value : string) : go (string * option error) :=
  let parts := Split value "@" in
  match parts with
  | [username; domain] =>
      let keepChars := len username / 4 in
      let keepChars := if keepChars <? 1 then 1 else keepChars in
      let numAsterisks := len username - 2 * keepChars in
      if numAsterisks <? 1 then Return ("*@" ++ domain, None)
      else
        first <~ sliceString username 0 keepChars ;;
        stars <~ Repeat "*" numAsterisks ;;
        last <~ sliceString username (len username - keepChars) (len username) ;;
        let maskedUsername := first ++ stars ++ last in
        let maskedEmail := maskedUsername ++ "@" ++ domain in
        Return (maskedEmail, None)
  | _ => Return ("", Some (errorString "Invalid email format"))
  end.

Definition maskPhone (arg value : string) : go (string * option error) :=
  rest <~ sliceString value 1 (len value) ;;
  let countryCodeLen := Index rest "+" + 6 in
  let countryCodeLen := if countryCodeLen <? 1 then 1 else countryCodeLen in
  countryCode <~ sliceString value 0 countryCodeLen ;;
  lastFour <~ sliceString value (len value - 2) (len value) ;;
  midSection <~ Repeat "*" (len value - countryCodeLen - 1) ;;
  Return (countryCode ++ midSection ++ lastFour, None).

Definition isASCII (c : ascii) : bool := (N_of_ascii c <? 128)%N.

(** The [asciiSpace] table of package strings: tab, line feed, vertical
    tab, form feed, carriage return and space. *)
Definition asciiSpace (c : ascii) : bool :=
  let n := N_of_ascii c in
  ((9 <=? n) && (n <=? 13) || (n =? 32))%N.

(** The pieces of [s] between the bytes that satisfy [p], empty pieces
    included. *)
Fixpoint splitWhere (p : ascii -> bool) (s : string) : list string :=
  match s with
  | EmptyString => [EmptyString]
  | String x rest =>
      if p x then EmptyString :: splitWhere p rest
      else match splitWhere p rest with
           | [] => [String x EmptyString]
           | piece :: pieces => String x piece :: pieces
           end
  end.

(** The ASCII path of [strings.Fields]: the maximal runs of bytes that are
    not in [asciiSpace]. *)
Definition fieldsASCII (s : string) : list string :=
  filter (fun w => negb (isEmpty w)) (splitWhere asciiSpace s).

(** The loop of [maskName] over [parts[1:]]. *)
Fixpoint maskRest (maskedName : string) (parts : list string) : go string :=
  match parts with
  | [] => Return maskedName
  | part :: rest =>
      stars <~ Repeat "*" (len part) ;;
      maskRest (maskedName ++ " " ++ stars) rest
  end.

Section MaskName.

(** [strings.FieldsFunc(s, unicode.IsSpace)], which [strings.Fields]
    switches to when the string holds a byte outside ASCII. *)
Variable FieldsFunc_IsSpace : string -> list string.

(** [strings.Fields(s)]. *)
Definition Fields (s : string) : list string :=
  if allBytes isASCII s then fieldsASCII s else FieldsFunc_IsSpace s.

Definition maskName (arg value : string) : go (string * option error) :=
  let parts := Fields value in
  if Z.of_nat (List.length parts) <? 2 then Return (value, None)
  else
    match parts with
    | first :: rest =>
        maskedName <~ maskRest first rest ;;
        Return (maskedName, None)
    | [] => Panic
    end.

End MaskName.

(** A name written as its words with single spaces between them. *)
Fixpoint spaced (first : string) (rest : list string) : string :=
  match rest with
  | [] => first
  | w :: ws => spaced (first ++ " " ++ w) ws
  end.

(** A word as [maskName] hides it. *)
Definition starred (w : string) : string := repeatString "*" (String.length w).

(** A word: not empty, no byte of [asciiSpace], every byte in ASCII. *)
Definition isWord (w : string) : Prop :=
  w <> "" /\ allBytes (fun c => negb (asciiSpace c)) w = true
  /\ allBytes isASCII w = true.

(** The value [maskPhone] computes for [countryCodeLen]: six more than
    the index of the first plus sign after the first byte, five when
    there is none. *)
Definition countryCodeLenOf (value : string) : Z :=
  Index (substring 1 (String.length value - 1) value) "+" + 6.

(* ================================================================== *)
(** * More sample collaborators *)

Module Fixture.

(** A driver that hands out the pool that answers. *)
Definition liveOpener (_ _ : string) : result DB := Ok Sample.livePool.

(** A context whose deadline falls half a millisecond after the clock of
    [Sample.w0] starts. *)
Definition expiring : Context := mkContext (Some 500000) None.

(** [Sample.plain] with certificate paths filled in, TLS still disabled. *)
Definition plainWithCerts : Config :=
  mkConfig "u" "p" "localhost" "5432" "lab" "" 2 4 (60 * Second)
           false "/ca.pem" "/cert.pem" "/key.pem" "lab api".

(** A configuration whose application name tries to set a parameter. *)
Definition hostile : Config :=
  mkConfig "u" "p" "localhost" "5432" "lab" "public" 2 4 (60 * Second)
           true "/ca.pem" "/cert.pem" "/key.pem" "lab&sslmode=disable".

(** A driver whose cursor delivers the three rows of [Sample.db] and then
    breaks off with an error. *)
Definition brokenCursor : ExtContext Z unit :=
  mkExtContext
    (fun _ _ _ => Ok (mkRows [7; 8; 9] (Some Sample.connRefused)))
    (fun _ _ _ => Err Sample.connRefused).

(** A name resolution that behaves like [Sample.named] on a list of
    values and panics on a nil argument ([None]), as [sqlx.Named] does
    when it asks for the kind of the argument's type. *)
Definition namedOrPanic (query : string) (args : option (list param))
  : go (result (string * list param)) :=
  match args with
  | None => Panic
  | Some values => Return (Ok (query, values))
  end.

(** A cursor that delivers the first row of [Sample.db]'s three and then
    breaks off with an error. *)
Definition droppedCursor : ExtContext Z unit :=
  mkExtContext
    (fun _ _ _ => Ok (mkRows [7] (Some Sample.connRefused)))
    (fun _ _ _ => Err Sample.connRefused).

(** A stand-in for the general path of [strings.Fields]. *)
Definition noFields (_ : string) : list string := [].

End Fixture.

(* ================================================================== *)
(** * Properties of the executors *)

Section ExecutorFacts.

Context {Row T any : Type}.
Variable emptyStruct : any.
Variable zero : T.
Variable StructScan : Row -> T -> T * option error.

(** The translation the two read paths apply to a driver error. *)
Lemma RunQuery_driver_error ctx (db : ExtContext Row any) query dest err :
  NamedQueryContext db ctx query emptyStruct = Err err ->
  RunQuery emptyStruct StructScan ctx db query dest =
  (Some match err with
        | PgError _ code _ =>
            if String.eqb code undefinedTable then ErrUndefinedTable else err
        | _ => err
        end, dest).
Proof.
  intros H. unfold RunQuery. rewrite H.
  destruct err; try reflexivity.
  destruct (String.eqb Code undefinedTable); reflexivity.
Qed.

Lemma RunQuerySlice_driver_error ctx (db : ExtContext Row any) query dest err :
  NamedQueryContext db ctx query emptyStruct = Err err ->
  RunQuerySlice emptyStruct zero StructScan ctx db query dest =
  (Some match err with
        | PgError _ code _ =>
            if String.eqb code undefinedTable then ErrUndefinedTable else err
        | _ => err
        end, dest).
Proof.
  intros H. unfold RunQuerySlice. rewrite H.
  destruct err; try reflexivity.
  destruct (String.eqb Code undefinedTable); reflexivity.
Qed.

(** The loop appends one mapped element per row, in the order of the
    rows, as long as every row maps. *)
Lemma scanRows_all_mapped rs : forall slice,
  Forall (fun r => snd (StructScan r zero) = None) rs ->
  scanRows zero StructScan rs slice =
  Ok (slice ++ map (fun r => fst (StructScan r zero)) rs)%list.
Proof.
  induction rs as [|r rest IH]; intros slice Hall; simpl.
  - now rewrite app_nil_r.
  - inversion Hall as [|? ? Hr Hrest]; subst.
    destruct (StructScan r zero) as [v err] eqn:E. simpl in Hr. subst err.
    rewrite IH by assumption. simpl. now rewrite <- app_assoc.
Qed.

(** The loop stops at the first row that does not map, with the mapper's
    error. *)
Lemma scanRows_first_failure pre : forall r post e slice,
  Forall (fun x => snd (StructScan x zero) = None) pre ->
  snd (StructScan r zero) = Some e ->
  scanRows zero StructScan (pre ++ r :: post)%list slice = Err e.
Proof.
  induction pre as [|x pre IH]; intros r post e slice Hpre Hr; simpl.
  - destruct (StructScan r zero) as [v err]. simpl in Hr. now subst err.
  - inversion Hpre as [|? ? Hx Hrest]; subst.
    destruct (StructScan x zero) as [v err]. simpl in Hx. subst err.
    now apply IH.
Qed.

(** C1. A single-row execution that the driver answers with a cursor:
    with no row it returns [ErrDBNotFound] and leaves the destination as
    it was; with one row or more it returns what mapping the first row
    into the destination gives (the mapped destination and no error when
    the mapper succeeds, the mapper's error otherwise), and two
    cursors with the same first row give the same answer, whatever rows
    follow and however the iteration would have ended. *)
Theorem RunQuery_first_row_only
  ctx (db : ExtContext Row any) query dest rows :
  NamedQueryContext db ctx query emptyStruct = Ok rows ->
  (pending rows = [] ->
   RunQuery emptyStruct StructScan ctx db query dest
   = (Some ErrDBNotFound, dest))
  /\ (forall r rest, pending rows = r :: rest ->
      RunQuery emptyStruct StructScan ctx db query dest
      = (snd (StructScan r dest), fst (StructScan r dest))
      /\ (forall v, StructScan r dest = (v, None) ->
          RunQuery emptyStruct StructScan ctx db query dest = (None, v)))
  /\ (forall (db' : ExtContext Row any) query' rows',
        NamedQueryContext db' ctx query' emptyStruct = Ok rows' ->
        hd_error (pending rows') = hd_error (pending rows) ->
        RunQuery emptyStruct StructScan ctx db' query' dest
        = RunQuery emptyStruct StructScan ctx db query dest).
Proof.
  intros H. unfold RunQuery, Next. rewrite H. split; [|split].
  - intros ->. reflexivity.
  - intros r rest ->.
    destruct (StructScan r dest) as [d' [e|]] eqn:E; simpl; split;
      try reflexivity; intros v Hv; congruence.
  - intros db' query' rows' H' Hhd. rewrite H'.
    destruct (pending rows) as [|r rest], (pending rows') as [|r' rest'];
      simpl in Hhd; try discriminate; [reflexivity|].
    injection Hhd as ->. reflexivity.
Qed.

(** A multi-row execution whose cursor delivers its rows: with no row
    the destination becomes the empty sequence and no error is returned;
    with N rows that all map, the destination becomes their N images in
    the order of the rows; a row that does not map makes the call return
    the mapper's error; and whenever the call returns an error, from the
    driver or from the mapper, the destination is what it was before the
    call. *)
Theorem RunQuerySlice_all_or_nothing
  ctx (db : ExtContext Row any) query dest :
  (forall rows, NamedQueryContext db ctx query emptyStruct = Ok rows ->
     (pending rows = [] ->
      RunQuerySlice emptyStruct zero StructScan ctx db query dest
      = (None, []))
     /\ (Forall (fun r => snd (StructScan r zero) = None) (pending rows) ->
         RunQuerySlice emptyStruct zero StructScan ctx db query dest
         = (None, map (fun r => fst (StructScan r zero)) (pending rows))
         /\ List.length
              (snd (RunQuerySlice emptyStruct zero StructScan ctx db query dest))
            = List.length (pending rows))
     /\ (forall pre r post e,
           pending rows = (pre ++ r :: post)%list ->
           Forall (fun x => snd (StructScan x zero) = None) pre ->
           snd (StructScan r zero) = Some e ->
           RunQuerySlice emptyStruct zero StructScan ctx db query dest
           = (Some e, dest)))
  /\ (forall e,
        fst (RunQuerySlice emptyStruct zero StructScan ctx db query dest)
        = Some e ->
        snd (RunQuerySlice emptyStruct zero StructScan ctx db query dest)
        = dest).
Proof.
  split.
  - intros rows H. unfold RunQuerySlice. rewrite H. split; [|split].
    + intros ->. reflexivity.
    + intros Hall. rewrite (scanRows_all_mapped _ [] Hall). simpl.
      split; [reflexivity|apply length_map].
    + intros pre r post e -> Hpre Hr.
      now rewrite (scanRows_first_failure pre r post e [] Hpre Hr).
  - intros e. unfold RunQuerySlice.
    destruct (NamedQueryContext db ctx query emptyStruct) as [rows|err].
    + destruct (scanRows zero StructScan (pending rows) []); simpl;
        [discriminate | reflexivity].
    + destruct err; try reflexivity.
      destruct (String.eqb Code undefinedTable); reflexivity.
Qed.

(** C2, where the code departs from it.  When the driver breaks the
    iteration off with an error, [rows.Next()] returns false as it does
    after the last row, and [RunQuerySlice] never reads [rows.Err()]: the
    call returns no error and replaces the destination by the images of
    the rows delivered before the failure. *)
Theorem RunQuerySlice_assigns_a_truncated_result
  ctx (db : ExtContext Row any) query dest rows e :
  NamedQueryContext db ctx query emptyStruct = Ok rows ->
  iterErr rows = Some e ->
  Forall (fun r => snd (StructScan r zero) = None) (pending rows) ->
  RunQuerySlice emptyStruct zero StructScan ctx db query dest
  = (None, map (fun r => fst (StructScan r zero)) (pending rows)).
Proof.
  intros H _ Hall. unfold RunQuerySlice. rewrite H.
  now rewrite (scanRows_all_mapped _ [] Hall).
Qed.

(** C3. A mutation: a driver error carrying the unique-violation code
    becomes [ErrDBDuplicatedEntry], one carrying the undefined-table code
    becomes [ErrUndefinedTable], and a statement the driver accepts is no
    error whatever its count of affected rows.  Which sentinel comes back
    is a function of the code alone: the same code with another severity
    or message gives the same sentinel, and an error that is not a
    [PgError] comes back as it is, whatever its text says. *)
Theorem RunCUD_classifies_by_code
  ctx (db : ExtContext Row any) query (data : any) :
  (forall sev msg,
     NamedExecContext db ctx query data = Err (PgError sev uniqueViolation msg) ->
     RunCUD ctx db query data = Some ErrDBDuplicatedEntry)
  /\ (forall sev msg,
     NamedExecContext db ctx query data = Err (PgError sev undefinedTable msg) ->
     RunCUD ctx db query data = Some ErrUndefinedTable)
  /\ (forall res,
     NamedExecContext db ctx query data = Ok res ->
     RunCUD ctx db query data = None)
  /\ (forall sev code msg,
     NamedExecContext db ctx query data = Err (PgError sev code msg) ->
     (RunCUD ctx db query data = Some ErrDBDuplicatedEntry
      <-> code = uniqueViolation)
     /\ (RunCUD ctx db query data = Some ErrUndefinedTable
      <-> code = undefinedTable))
  /\ (forall err,
     NamedExecContext db ctx query data = Err err ->
     (forall sev code msg, err <> PgError sev code msg) ->
     RunCUD ctx db query data = Some err).
Proof.
  unfold RunCUD. split; [|split; [|split; [|split]]].
  - intros sev msg ->. reflexivity.
  - intros sev msg ->. reflexivity.
  - intros res ->. reflexivity.
  - intros sev code msg ->.
    destruct (String.eqb_spec code undefinedTable) as [->|Hu];
      [|destruct (String.eqb_spec code uniqueViolation) as [->|Hv]];
      (split; split; intros E; try reflexivity; try discriminate;
       try congruence).
  - intros err -> Hnot. destruct err; try reflexivity.
    exfalso. eapply Hnot. reflexivity.
Qed.

(** C7, as the code has it.  On the two read paths an error that the
    execution of the query returns ([sqlx.NamedQueryContext]) becomes
    [ErrUndefinedTable] when it is a [PgError] with the undefined-table
    code; every other such error, a [PgError] with the unique-violation
    code included, is returned to the caller as the driver gave it, with
    no wrapping; the destination is untouched in each case. *)
Theorem read_paths_translate_undefined_table_only
  ctx (db : ExtContext Row any) query (dest : T) (dests : list T) err :
  NamedQueryContext db ctx query emptyStruct = Err err ->
  ((exists sev msg, err = PgError sev undefinedTable msg) ->
     RunQuery emptyStruct StructScan ctx db query dest
     = (Some ErrUndefinedTable, dest)
     /\ RunQuerySlice emptyStruct zero StructScan ctx db query dests
        = (Some ErrUndefinedTable, dests))
  /\ ((forall sev msg, err <> PgError sev undefinedTable msg) ->
     RunQuery emptyStruct StructScan ctx db query dest = (Some err, dest)
     /\ RunQuerySlice emptyStruct zero StructScan ctx db query dests
        = (Some err, dests))
  /\ (forall sev msg, err = PgError sev uniqueViolation msg ->
     RunQuery emptyStruct StructScan ctx db query dest = (Some err, dest)
     /\ RunQuerySlice emptyStruct zero StructScan ctx db query dests
        = (Some err, dests)).
Proof.
  intros H.
  rewrite (RunQuery_driver_error _ _ _ dest _ H).
  rewrite (RunQuerySlice_driver_error _ _ _ dests _ H).
  split; [|split].
  - intros (sev & msg & ->). split; reflexivity.
  - intros Hnot.
    assert (E : match err with
                | PgError _ code _ =>
                    if String.eqb code undefinedTable then ErrUndefinedTable
                    else err
                | _ => err
                end = err).
    { destruct err; try reflexivity.
      destruct (String.eqb_spec Code undefinedTable) as [->|]; [|reflexivity].
      exfalso. eapply Hnot. reflexivity. }
    rewrite E. split; reflexivity.
  - intros sev msg ->. split; reflexivity.
Qed.

End ExecutorFacts.

(* ================================================================== *)
(** * Properties of the health check *)

Lemma ctxErr_deadline_reached ctx D t :
  ctxDeadline ctx = Some D -> D <= t -> ctxErr ctx t <> None.
Proof.
  intros HD Hle. unfold ctxErr, reached. rewrite HD.
  assert (E : (D <=? t) = true) by (apply Z.leb_le; lia). rewrite E.
  destruct (ctxCancelAt ctx) as [c|]; [|discriminate].
  destruct (c <=? t); [|discriminate].
  destruct (c <=? D); discriminate.
Qed.

(** A context reports one of two errors. *)
Lemma ctxErr_kinds ctx t e :
  ctxErr ctx t = Some e -> e = context_Canceled \/ e = context_DeadlineExceeded.
Proof.
  unfold ctxErr.
  destruct (reached (ctxCancelAt ctx) t), (reached (ctxDeadline ctx) t);
    try (intros [= <-]; auto; fail); try discriminate.
  destruct (ctxCancelAt ctx) as [c|], (ctxDeadline ctx) as [d|];
    try (intros [= <-]; auto; fail).
  destruct (c <=? d); intros [= <-]; auto.
Qed.

(** Once a context reports an error it keeps reporting that error. *)
Lemma ctxErr_stable ctx t t' e :
  ctxErr ctx t = Some e -> t <= t' -> ctxErr ctx t' = Some e.
Proof.
  unfold ctxErr, reached. intros H Hle.
  destruct (ctxCancelAt ctx) as [c|], (ctxDeadline ctx) as [d|];
    repeat match goal with
           | |- context [?x <=? ?y] => destruct (Z.leb_spec x y)
           | H : context [?x <=? ?y] |- _ => destruct (Z.leb_spec x y)
           end; try congruence; try lia.
Qed.

(** The default deadline does not change what an already finished context
    reports. *)
Lemma ctxErr_effectiveCtx ctx t0 t e :
  ctxErr ctx t0 = Some e -> t0 <= t -> ctxErr (effectiveCtx ctx t0) t = Some e.
Proof.
  intros H Hle. unfold effectiveCtx, Deadline.
  destruct (ctxDeadline ctx) as [d|] eqn:HD; simpl.
  - now apply ctxErr_stable with t0.
  - revert H. unfold ctxErr, reached, context_WithTimeout. rewrite HD. simpl.
    destruct (ctxCancelAt ctx) as [c|]; [|discriminate].
    unfold Second.
    repeat match goal with
           | |- context [?x <=? ?y] => destruct (Z.leb_spec x y)
           end; try congruence; try lia.
Qed.

Lemma withDefaultDeadline_run ctx w :
  withDefaultDeadline ctx w = Some (effectiveCtx ctx (now w), w).
Proof.
  unfold withDefaultDeadline, effectiveCtx.
  destruct (snd (Deadline ctx)); reflexivity.
Qed.

Lemma effectiveCtx_has_deadline ctx t :
  exists D, ctxDeadline (effectiveCtx ctx t) = Some D.
Proof.
  unfold effectiveCtx, Deadline.
  destruct (ctxDeadline ctx) as [d|] eqn:HD; simpl; eauto.
Qed.

(** One iteration of the retry loop, spelled out on the world. *)
Lemma pingLoop_step fuel db ctx a w :
  pingLoop (S fuel) db ctx a w =
  let perr := fst (PingContext db ctx (now w)) in
  let took := snd (PingContext db ctx (now w)) in
  let w1 := mkWorld (now w + Z.of_N took) (trace w ++ [EvPing (now w) perr]) in
  match perr with
  | None => Some (None, w1)
  | Some pe =>
      let w2 := mkWorld (now w1 + Z.max 0 (a * 1 * Second))
                        (trace w1 ++ [EvSleep (a * 1 * Second)]) in
      match ctxErr ctx (now w2) with
      | Some ce => Some (Some (pingFailure ce pe), w2)
      | None => pingLoop fuel db ctx (a + 1) w2
      end
  end.
Proof.
  cbn [pingLoop]. run_world.
  destruct (PingContext db ctx (now w)) as [[pe|] took]; simpl; [|reflexivity].
  destruct (ctxErr ctx _); reflexivity.
Qed.

Lemma backoffTotal_lower a k :
  1 <= a -> Z.of_nat k * Second <= backoffTotal a k.
Proof.
  revert a. induction k as [|k IH]; intros a Ha.
  - simpl. lia.
  - cbn [backoffTotal]. specialize (IH (a + 1) ltac:(lia)).
    unfold Second in *. lia.
Qed.

(** Against a probe that always fails, the retry loop returns within
    [S m] attempts as soon as the sleeps of [S m] attempts cover what is
    left until the deadline; it returns the two errors wrapped together,
    and what it did is a run of probe-then-sleep pairs. *)
Lemma pingLoop_gives_up db ctx D :
  ctxDeadline ctx = Some D -> alwaysFails db ->
  forall m fuel a w,
    1 <= a -> D - now w <= backoffTotal a (S m) -> (m < fuel)%nat ->
    exists probes ce pe w',
      pingLoop fuel db ctx a w = Some (Some (pingFailure ce pe), w')
      /\ ctxErr ctx (now w') = Some ce
      /\ lastError probes = Some pe
      /\ (1 <= List.length probes <= S m)%nat
      /\ trace w' = (trace w ++ retryTrace a probes)%list.
Proof.
  intros HD Hfail. induction m as [|m IH]; intros fuel a w Ha Hleft Hfuel;
    (destruct fuel as [|fuel]; [lia|]); rewrite pingLoop_step; cbv zeta;
    pose proof (Hfail ctx (now w)) as Hp;
    destruct (PingContext db ctx (now w)) as [[pe|] took]; simpl in *;
    try congruence.
  - (* the sleep of this attempt reaches the deadline *)
    destruct (ctxErr ctx _) as [ce|] eqn:E.
    + exists [(now w, pe)], ce, pe. eexists. repeat split; eauto.
      simpl. now rewrite <- app_assoc.
    + exfalso. eapply ctxErr_deadline_reached; [exact HD| |exact E].
      unfold Second in *. lia.
  - destruct (ctxErr ctx _) as [ce|] eqn:E.
    + exists [(now w, pe)], ce, pe. eexists. repeat split; eauto.
      * simpl. lia.
      * simpl. now rewrite <- app_assoc.
    + edestruct (IH fuel (a + 1)) as (probes & ce & pe' & w' & Hrun & Hce & Hlast & Hlen & Htr);
        [| |lia| ].
      3: { rewrite Hrun. exists ((now w, pe) :: probes), ce, pe', w'.
           repeat split; auto.
           - unfold lastError in *. simpl.
             destruct probes as [|p ps]; [simpl in Hlen; lia|]. exact Hlast.
           - simpl. lia.
           - simpl. lia.
           - rewrite Htr. simpl. now rewrite <- !app_assoc. }
      * lia.
      * simpl. unfold Second in *. lia.
Qed.

Lemma StatusCheck_run fuel ctx db w :
  StatusCheck fuel ctx db w =
  let ctx' := effectiveCtx ctx (now w) in
  match pingLoop fuel db ctx' 1 w with
  | None => None
  | Some (Some e, w') => Some (Some e, w')
  | Some (None, w') =>
      match ctxErr ctx' (now w') with
      | Some ce => Some (Some ce, w')
      | None => doQueryRowScan db ctx' "SELECT true" w'
      end
  end.
Proof.
  unfold StatusCheck. unfold bind at 1. rewrite withDefaultDeadline_run.
  cbv zeta. unfold bind at 1.
  destruct (pingLoop fuel db (effectiveCtx ctx (now w)) 1 w) as [[[e|] w']|];
    try reflexivity.
  unfold doCtxErr, time_Now. unfold bind at 1. unfold bind at 1. unfold ret at 1.
  destruct (ctxErr (effectiveCtx ctx (now w)) (now w')); reflexivity.
Qed.

(** Against a probe that always fails the health check returns within
    [S m] attempts once their sleeps cover the time to the deadline. *)
Lemma StatusCheck_fails_within db ctx w D m fuel :
  alwaysFails db ->
  ctxDeadline (effectiveCtx ctx (now w)) = Some D ->
  D - now w <= backoffTotal 1 (S m) -> (m < fuel)%nat ->
  exists probes ce pe w',
    StatusCheck fuel ctx db w = Some (Some (pingFailure ce pe), w')
    /\ ctxErr (effectiveCtx ctx (now w)) (now w') = Some ce
    /\ lastError probes = Some pe
    /\ (1 <= List.length probes <= S m)%nat
    /\ trace w' = (trace w ++ retryTrace 1 probes)%list.
Proof.
  intros Hfail HD Hleft Hfuel.
  destruct (pingLoop_gives_up db _ D HD Hfail m fuel 1 w ltac:(lia) Hleft Hfuel)
    as (probes & ce & pe & w' & Hrun & Hce & Hlast & Hlen & Htr).
  exists probes, ce, pe, w'. rewrite StatusCheck_run. cbv zeta. rewrite Hrun.
  repeat split; auto; lia.
Qed.

(** C4. With a context that carries no deadline the health check works
    under a deadline five seconds after the call.  Against a probe that
    always fails it returns (any fuel from some bound on gives the same
    kind of answer; with the default deadline three attempts are the
    most it makes): the error it returns wraps the error of the context,
    which has by then expired or been cancelled, and the error of the last
    probe, in that order; and what it did is a run of probes each followed
    by a sleep of 1, 2, 3, ... seconds. *)
Theorem StatusCheck_gives_up db ctx w :
  alwaysFails db ->
  (ctxDeadline ctx = None ->
     withDefaultDeadline ctx w = Some (effectiveCtx ctx (now w), w)
     /\ ctxDeadline (effectiveCtx ctx (now w)) = Some (now w + 5 * Second))
  /\ (exists n, forall fuel, (n <= fuel)%nat ->
        exists probes ce pe w',
          StatusCheck fuel ctx db w = Some (Some (pingFailure ce pe), w')
          /\ Unwrap (pingFailure ce pe) = [ce; pe]
          /\ ctxErr (effectiveCtx ctx (now w)) (now w') = Some ce
          /\ lastError probes = Some pe
          /\ probes <> []
          /\ trace w' = (trace w ++ retryTrace 1 probes)%list)
  /\ (ctxDeadline ctx = None ->
      forall fuel, (3 <= fuel)%nat ->
        exists probes ce pe w',
          StatusCheck fuel ctx db w = Some (Some (pingFailure ce pe), w')
          /\ ctxErr (effectiveCtx ctx (now w)) (now w') = Some ce
          /\ lastError probes = Some pe
          /\ (1 <= List.length probes <= 3)%nat
          /\ trace w' = (trace w ++ retryTrace 1 probes)%list).
Proof.
  intros Hfail. split; [|split].
  - intros Hnone. split; [apply withDefaultDeadline_run|].
    unfold effectiveCtx, Deadline, context_WithTimeout. rewrite Hnone. simpl.
    f_equal; unfold Second; lia.
  - destruct (effectiveCtx_has_deadline ctx (now w)) as [D HD].
    exists (S (Z.to_nat (D - now w))). intros fuel Hfuel.
    assert (Hleft : D - now w <= backoffTotal 1 (S (Z.to_nat (D - now w)))).
    { pose proof (backoffTotal_lower 1 (S (Z.to_nat (D - now w))) ltac:(lia)).
      unfold Second in *. lia. }
    destruct (StatusCheck_fails_within db ctx w D (Z.to_nat (D - now w)) fuel
                Hfail HD Hleft ltac:(lia))
      as (probes & ce & pe & w' & Hrun & Hce & Hlast & Hlen & Htr).
    exists probes, ce, pe, w'. repeat split; auto.
    intros ->. simpl in Hlen. lia.
  - intros Hnone fuel Hfuel.
    apply (StatusCheck_fails_within db ctx w (now w + 5 * Second) 2 fuel Hfail).
    + unfold effectiveCtx, Deadline, context_WithTimeout. rewrite Hnone. simpl.
      f_equal; unfold Second; lia.
    + simpl. unfold Second. lia.
    + lia.
Qed.

(** C10. The health check probes before it looks at the context.  Called
    with a context that is already cancelled or expired it still issues a
    ping at the instant of the call; when that ping fails it sleeps one
    second and then returns, out of the retry loop, an error that wraps
    the context's error and the ping's error, which is not the context's
    error alone. *)
Theorem StatusCheck_probes_a_finished_context fuel db ctx w ce :
  ctxErr ctx (now w) = Some ce ->
  (exists r w' outcome rest,
     StatusCheck (S fuel) ctx db w = Some (r, w')
     /\ trace w' = (trace w ++ EvPing (now w) outcome :: rest)%list)
  /\ (forall pe took,
        PingContext db (effectiveCtx ctx (now w)) (now w) = (Some pe, took) ->
        StatusCheck (S fuel) ctx db w
        = Some (Some (pingFailure ce pe),
                mkWorld (now w + Z.of_N took + 1 * Second)
                        (trace w ++ [EvPing (now w) (Some pe);
                                     EvSleep (1 * 1 * Second)]))
        /\ Unwrap (pingFailure ce pe) = [ce; pe]
        /\ pingFailure ce pe <> ce).
Proof.
  intros Hdone.
  assert (Hlater : forall t, now w <= t ->
            ctxErr (effectiveCtx ctx (now w)) t = Some ce)
    by (intros t Ht; now apply ctxErr_effectiveCtx).
  split.
  - rewrite StatusCheck_run. cbv zeta. rewrite pingLoop_step. cbv zeta.
    destruct (PingContext db (effectiveCtx ctx (now w)) (now w))
      as [[pe|] took]; simpl.
    + rewrite Hlater by (unfold Second; lia).
      do 4 eexists. split; [reflexivity|]. simpl.
      rewrite <- app_assoc. reflexivity.
    + rewrite Hlater by lia.
      do 4 eexists. split; [reflexivity|]. simpl. reflexivity.
  - intros pe took Hping. rewrite StatusCheck_run. cbv zeta.
    rewrite pingLoop_step. cbv zeta. rewrite Hping. simpl.
    rewrite Hlater by (unfold Second; lia).
    repeat split.
    + rewrite <- app_assoc. reflexivity.
    + destruct (ctxErr_kinds _ _ _ Hdone) as [-> | ->]; discriminate.
Qed.

Lemma backoffTotal_closed a k :
  2 * backoffTotal a k
  = (2 * a * Z.of_nat k + Z.of_nat k * (Z.of_nat k - 1)) * Second.
Proof.
  revert a. induction k as [|k IH]; intros a; [simpl; lia|].
  cbn [backoffTotal]. specialize (IH (a + 1)). unfold Second in *. lia.
Qed.

(** Every sleep of the retry loop belongs to an attempt whose predecessors
    slept, in total, no longer than the time that was left to the
    deadline when the loop started. *)
Lemma pingLoop_sleeps db ctx D :
  ctxDeadline ctx = Some D ->
  forall fuel a w r w',
    1 <= a -> pingLoop fuel db ctx a w = Some (r, w') ->
    exists evs,
      trace w' = (trace w ++ evs)%list
      /\ Forall (fun ev => forall d, ev = EvSleep d ->
                   exists k : nat,
                     d = (a + Z.of_nat k) * 1 * Second
                     /\ backoffTotal a k <= Z.max 0 (D - now w)) evs.
Proof.
  intros HD. induction fuel as [|fuel IH]; intros a w r w' Ha Hrun;
    [discriminate|].
  rewrite pingLoop_step in Hrun. cbv zeta in Hrun.
  destruct (PingContext db ctx (now w)) as [[pe|] took]; simpl in Hrun.
  - destruct (ctxErr ctx _) as [ce|] eqn:E.
    + injection Hrun as <- <-. simpl.
      exists [EvPing (now w) (Some pe); EvSleep (a * 1 * Second)].
      split; [now rewrite <- app_assoc|].
      repeat constructor; intros d [=]. subst d.
      exists 0%nat. simpl. split; lia.
    + apply IH in Hrun as (evs & Htr & Hall); [|lia]. simpl in Htr, Hall.
      exists (EvPing (now w) (Some pe) :: EvSleep (a * 1 * Second) :: evs).
      split; [rewrite Htr, <- !app_assoc; reflexivity|].
      assert (Hnow : now w + Z.of_N took + Z.max 0 (a * 1 * Second) < D).
      { destruct (Z.lt_ge_cases (now w + Z.of_N took + Z.max 0 (a * 1 * Second)) D)
          as [?|Hge]; [assumption|].
        exfalso. eapply ctxErr_deadline_reached; [exact HD|exact Hge|exact E]. }
      constructor; [intros d [=]|]. constructor.
      * intros d [=]. subst d. exists 0%nat. simpl. split; lia.
      * eapply Forall_impl; [|exact Hall]. intros ev Hev d Hd.
        destruct (Hev d Hd) as (k & -> & Hk). exists (S k).
        cbn [backoffTotal]. unfold Second in *. split; lia.
  - injection Hrun as <- <-. simpl. exists [EvPing (now w) None].
    split; [reflexivity|]. repeat constructor. intros d [=].
Qed.

(** With the deadline at most a [time.Duration] away, every sleep of the
    health check is an attempt number that fits a 32-bit [int] times one
    second, and fits a [time.Duration]: the machine arithmetic of the
    loop never wraps around. *)
Lemma StatusCheck_in_machine_range db ctx w D fuel r w' :
  ctxDeadline (effectiveCtx ctx (now w)) = Some D ->
  D - now w <= maxDuration ->
  StatusCheck fuel ctx db w = Some (r, w') ->
  exists evs,
    trace w' = (trace w ++ evs)%list /\ Forall sleepInRange evs.
Proof.
  intros HD Hrange. rewrite StatusCheck_run. cbv zeta.
  destruct (pingLoop fuel db (effectiveCtx ctx (now w)) 1 w)
    as [[r0 w0]|] eqn:Hloop; [|discriminate].
  destruct (pingLoop_sleeps db _ D HD fuel 1 w r0 w0 ltac:(lia) Hloop)
    as (evs & Htr & Hall).
  assert (Hin : Forall sleepInRange evs).
  { eapply Forall_impl; [|exact Hall]. intros [| | | | | d |] Hev; simpl; auto.
    destruct (Hev d eq_refl) as (k & -> & Hk).
    pose proof (backoffTotal_closed 1 k) as Hc.
    exists (1 + Z.of_nat k). unfold maxDuration, maxInt32, Second in *.
    assert (Z.of_nat k < 200000) by nia.
    repeat split; lia. }
  destruct r0 as [e|].
  - intros [= <- <-]. exists evs. auto.
  - destruct (ctxErr _ (now w0)).
    + intros [= <- <-]. exists evs. auto.
    + run_world.
      destruct (QueryRowScan db _ "SELECT true" (now w0)) as [err took].
      simpl. intros [= <- <-]. simpl.
      exists (evs ++ [EvQueryRow "SELECT true"])%list.
      split; [rewrite Htr, <- app_assoc; reflexivity|].
      apply Forall_app. split; [assumption|]. repeat constructor.
Qed.

(** Whatever the probe does, the retry loop returns within [S m] attempts
    once their sleeps cover the time to the deadline; it only adds to the
    log, and what it adds starts with a ping issued at once. *)
Lemma pingLoop_returns db ctx D :
  ctxDeadline ctx = Some D ->
  forall m fuel a w,
    1 <= a -> D - now w <= backoffTotal a (S m) -> (m < fuel)%nat ->
    exists r w' outcome evs,
      pingLoop fuel db ctx a w = Some (r, w')
      /\ trace w' = (trace w ++ EvPing (now w) outcome :: evs)%list.
Proof.
  intros HD. induction m as [|m IH]; intros fuel a w Ha Hleft Hfuel;
    (destruct fuel as [|fuel]; [lia|]); rewrite pingLoop_step; cbv zeta;
    destruct (PingContext db ctx (now w)) as [[pe|] took]; simpl in *;
    try (do 4 eexists; split; reflexivity).
  - destruct (ctxErr ctx _) as [ce|] eqn:E.
    + do 4 eexists. split; [reflexivity|]. simpl. now rewrite <- app_assoc.
    + exfalso. eapply ctxErr_deadline_reached; [exact HD| |exact E].
      unfold Second in *. lia.
  - destruct (ctxErr ctx _) as [ce|] eqn:E.
    + do 4 eexists. split; [reflexivity|]. simpl. now rewrite <- app_assoc.
    + edestruct (IH fuel (a + 1)) as (r & w' & o & evs & Hrun & Htr);
        [| |lia| ].
      3: { rewrite Hrun. do 4 eexists. split; [reflexivity|].
           rewrite Htr. simpl. rewrite <- !app_assoc. reflexivity. }
      * lia.
      * simpl. unfold Second in *. lia.
Qed.

Lemma StatusCheck_returns_within db ctx w D m fuel :
  ctxDeadline (effectiveCtx ctx (now w)) = Some D ->
  D - now w <= backoffTotal 1 (S m) -> (m < fuel)%nat ->
  exists r w' outcome evs,
    StatusCheck fuel ctx db w = Some (r, w')
    /\ trace w' = (trace w ++ EvPing (now w) outcome :: evs)%list.
Proof.
  intros HD Hleft Hfuel.
  destruct (pingLoop_returns db _ D HD _ fuel 1 w ltac:(lia) Hleft Hfuel)
    as (r & w' & o & evs & Hrun & Htr).
  rewrite StatusCheck_run. cbv zeta. rewrite Hrun.
  destruct r as [e|]; [do 4 eexists; split; [reflexivity|exact Htr]|].
  destruct (ctxErr _ (now w')); [do 4 eexists; split; [reflexivity|exact Htr]|].
  run_world. destruct (QueryRowScan db _ "SELECT true" (now w')) as [err took].
  simpl. do 4 eexists. split; [reflexivity|]. simpl. rewrite Htr.
  rewrite <- app_assoc. reflexivity.
Qed.

(** The health check returns, whatever the pool and the context do: its
    loop runs under a deadline in every case, and each failed attempt
    moves the clock at least one second towards it. *)
Theorem StatusCheck_returns db ctx w :
  exists n, forall fuel, (n <= fuel)%nat ->
    exists r w' outcome evs,
      StatusCheck fuel ctx db w = Some (r, w')
      /\ trace w' = (trace w ++ EvPing (now w) outcome :: evs)%list.
Proof.
  destruct (effectiveCtx_has_deadline ctx (now w)) as [D HD].
  exists (S (Z.to_nat (D - now w))). intros fuel Hfuel.
  assert (Hleft : D - now w <= backoffTotal 1 (S (Z.to_nat (D - now w)))).
  { pose proof (backoffTotal_lower 1 (S (Z.to_nat (D - now w))) ltac:(lia)).
    unfold Second in *. lia. }
  exact (StatusCheck_returns_within db ctx w D _ fuel HD Hleft ltac:(lia)).
Qed.

(* ================================================================== *)
(** * Properties of the bootstrap *)

Lemma getSSLMode_cases cfg :
  (EnableTLS cfg = false /\ getSSLMode cfg = Ok "disable")
  \/ (EnableTLS cfg = true
      /\ (CACert cfg = "" \/ ClientCert cfg = "" \/ ClientKey cfg = "")
      /\ getSSLMode cfg
         = Err (errorString "SSL certificates not properly configured"))
  \/ (EnableTLS cfg = true
      /\ CACert cfg <> "" /\ ClientCert cfg <> "" /\ ClientKey cfg <> ""
      /\ getSSLMode cfg = Ok "require").
Proof.
  unfold getSSLMode, isEmpty.
  destruct (EnableTLS cfg); simpl; [|left; split; reflexivity].
  destruct (String.eqb_spec (CACert cfg) ""); simpl;
    [right; left; repeat split; auto|].
  destruct (String.eqb_spec (ClientCert cfg) ""); simpl;
    [right; left; repeat split; auto|].
  destruct (String.eqb_spec (ClientKey cfg) ""); simpl;
    [right; left; repeat split; auto|].
  right. right. repeat split; auto.
Qed.

Section BootstrapFacts.

Variable URL_String : URL -> string.
Variable sqlx_Open : string -> string -> result DB.

(** C5. With TLS enabled and one of the three certificate fields empty,
    [Open] returns the configuration error of [getSSLMode] and neither
    the clock nor the log of the world has moved: no pool was asked for,
    no probe was sent.  The answer is the same for every renderer and
    every driver, so neither was consulted. *)
Theorem Open_rejects_incomplete_TLS fuel cfg w :
  EnableTLS cfg = true ->
  CACert cfg = "" \/ ClientCert cfg = "" \/ ClientKey cfg = "" ->
  getSSLMode cfg
  = Err (errorString "SSL certificates not properly configured")
  /\ Open URL_String sqlx_Open fuel cfg w
     = Some (Err (errorString "SSL certificates not properly configured"), w).
Proof.
  intros Htls Hempty.
  assert (H : getSSLMode cfg
              = Err (errorString "SSL certificates not properly configured")).
  { destruct (getSSLMode_cases cfg) as [[E _]|[(_ & _ & E)|(_ & A & B & C & _)]].
    - congruence.
    - exact E.
    - destruct Hempty as [?|[?|?]]; contradiction. }
  split; [exact H|]. unfold Open. rewrite H. reflexivity.
Qed.

(** When the driver hands out a pool, [Open] sets the three pool limits
    on it, in the order of the code, before the first probe of the health
    check goes out; it returns either that pool or the error of the health
    check wrapped under [database status check]. *)
Theorem Open_sizes_pool_before_traffic fuel cfg w sslMode db :
  getSSLMode cfg = Ok sslMode ->
  sqlx_Open "pgx" (URL_String (connURL cfg sslMode)) = Ok db ->
  (3 <= fuel)%nat ->
  exists r w' outcome evs,
    Open URL_String sqlx_Open fuel cfg w = Some (r, w')
    /\ trace w'
       = (trace w
          ++ [EvSqlxOpen "pgx" (URL_String (connURL cfg sslMode));
              EvSetMaxIdleConns (MaxIdleConns cfg);
              EvSetMaxOpenConns (MaxOpenConns cfg);
              EvSetConnMaxIdleTime (IdleConnTimeout cfg);
              EvPing (now w) outcome]
          ++ evs)%list
    /\ (r = Ok db
        \/ exists e,
             r = Err (wrapError ("database status check: " ++ Error e) e)).
Proof.
  intros H Hdb Hfuel. unfold Open. rewrite H. unfold doSqlxOpen. run_world.
  rewrite Hdb.
  match goal with
  | |- context [StatusCheck fuel ?c db ?w1] =>
      pose proof (StatusCheck_returns_within db c w1 (now w + 5 * Second) 2 fuel)
        as Hsc
  end.
  destruct Hsc as (r & w' & o & evs & Hrun & Htr).
  - simpl. f_equal; unfold Second; lia.
  - simpl. unfold Second. lia.
  - lia.
  - rewrite Hrun. simpl in Htr.
    destruct r as [e|]; do 4 eexists;
      (split; [reflexivity|]);
      (split; [rewrite Htr; rewrite <- !app_assoc; reflexivity|]);
      [right; eexists; reflexivity | left; reflexivity].
Qed.

(** When the driver refuses, [Open] returns the driver's error and has
    done nothing else. *)
Lemma Open_driver_refuses fuel cfg w sslMode err :
  getSSLMode cfg = Ok sslMode ->
  sqlx_Open "pgx" (URL_String (connURL cfg sslMode)) = Err err ->
  Open URL_String sqlx_Open fuel cfg w
  = Some (Err err,
          mkWorld (now w)
                  (trace w ++ [EvSqlxOpen "pgx" (URL_String (connURL cfg sslMode))])).
Proof.
  intros H Hdb. unfold Open. rewrite H. unfold doSqlxOpen. run_world.
  now rewrite Hdb.
Qed.

(** For a configuration [getSSLMode] accepts, [Open] returns and the
    first thing it does is to ask the driver for a pool with the
    rendering of [connURL]. *)
Lemma Open_asks_for_connURL fuel cfg w sslMode :
  getSSLMode cfg = Ok sslMode -> (3 <= fuel)%nat ->
  exists r w' evs,
    Open URL_String sqlx_Open fuel cfg w = Some (r, w')
    /\ trace w'
       = (trace w
          ++ EvSqlxOpen "pgx" (URL_String (connURL cfg sslMode)) :: evs)%list.
Proof.
  intros H Hfuel.
  destruct (sqlx_Open "pgx" (URL_String (connURL cfg sslMode))) as [db|err] eqn:E.
  - unfold Open. rewrite H. unfold doSqlxOpen. run_world. rewrite E.
    match goal with
    | |- context [StatusCheck fuel ?c db ?w1] =>
        pose proof (StatusCheck_returns_within db c w1 (now w + 5 * Second) 2 fuel)
          as Hsc
    end.
    destruct Hsc as (r & w' & o & evs & Hrun & Htr).
    + simpl. f_equal; unfold Second; lia.
    + simpl. unfold Second. lia.
    + lia.
    + rewrite Hrun. simpl in Htr.
      destruct r as [e|]; do 3 eexists; (split; [reflexivity|]);
        rewrite Htr; rewrite <- !app_assoc; reflexivity.
  - rewrite (Open_driver_refuses fuel cfg w sslMode err H E).
    do 3 eexists. split; reflexivity.
Qed.

End BootstrapFacts.

(** C6. For a configuration [getSSLMode] accepts, the parameters of the
    connection target are: [sslmode=disable] and no certificate parameter
    when TLS is off; [sslmode=require] and the three certificate
    parameters, each with its (non-empty) configured path, when TLS is on;
    [timezone=utc] and the application name in both cases; [search_path]
    exactly when the schema is not empty.  The encoded query of the target
    is these pairs, escaped, sorted by key and joined by ampersands, and
    the rendering of that target is what [Open] asks the driver to open. *)
Theorem Open_connection_target cfg sslMode :
  getSSLMode cfg = Ok sslMode ->
  let q := connValues cfg sslMode in
  (EnableTLS cfg = false ->
     Values_Get q "sslmode" = "disable"
     /\ Values_Has q "sslrootcert" = false
     /\ Values_Has q "sslcert" = false
     /\ Values_Has q "sslkey" = false)
  /\ (EnableTLS cfg = true ->
     Values_Get q "sslmode" = "require"
     /\ Values_Get q "sslrootcert" = CACert cfg /\ CACert cfg <> ""
     /\ Values_Get q "sslcert" = ClientCert cfg /\ ClientCert cfg <> ""
     /\ Values_Get q "sslkey" = ClientKey cfg /\ ClientKey cfg <> "")
  /\ Values_Get q "timezone" = "utc"
  /\ Values_Has q "application_name" = true
  /\ Values_Get q "application_name" = ApplicationName cfg
  /\ Values_Has q "search_path" = negb (isEmpty (Schema cfg))
  /\ Values_Get q "search_path" = Schema cfg
  /\ RawQuery (connURL cfg sslMode)
     = joinWith "&"
         ([("application_name=" ++ QueryEscape (ApplicationName cfg))%string]
          ++ (if isEmpty (Schema cfg) then []
              else [("search_path=" ++ QueryEscape (Schema cfg))%string])
          ++ (if EnableTLS cfg
              then [("sslcert=" ++ QueryEscape (ClientCert cfg))%string;
                    ("sslkey=" ++ QueryEscape (ClientKey cfg))%string]
              else [])
          ++ [("sslmode=" ++ sslMode)%string]
          ++ (if EnableTLS cfg
              then [("sslrootcert=" ++ QueryEscape (CACert cfg))%string]
              else [])
          ++ ["timezone=utc"])%list
  /\ (forall URL_String sqlx_Open fuel w, (3 <= fuel)%nat ->
        exists r w' evs,
          Open URL_String sqlx_Open fuel cfg w = Some (r, w')
          /\ trace w'
             = (trace w
                ++ EvSqlxOpen "pgx" (URL_String (connURL cfg sslMode)) :: evs)%list).
Proof.
  intros Hmode q.
  assert (Hopen : forall URL_String sqlx_Open fuel w, (3 <= fuel)%nat ->
        exists r w' evs,
          Open URL_String sqlx_Open fuel cfg w = Some (r, w')
          /\ trace w'
             = (trace w
                ++ EvSqlxOpen "pgx" (URL_String (connURL cfg sslMode)) :: evs)%list)
    by (intros; now apply Open_asks_for_connURL).
  assert (Hschema : isEmpty (Schema cfg) = true -> Schema cfg = "")
    by (unfold isEmpty; apply String.eqb_eq).
  repeat match goal with |- _ /\ _ => split end; try exact Hopen; clear Hopen;
    subst q; unfold connURL, connValues; cbn [RawQuery];
    destruct (getSSLMode_cases cfg)
      as [[Etls E]|[(Etls & _ & E)|(Etls & A & B & C & E)]];
    rewrite E in Hmode; inversion Hmode; subst sslMode; clear Hmode;
    rewrite Etls;
    destruct (isEmpty (Schema cfg)) eqn:Es;
    try (rewrite (Hschema eq_refl));
    try discriminate; try reflexivity;
    intros; repeat split; try reflexivity; try discriminate; assumption.
Qed.

(* ================================================================== *)
(** * Properties of the query formatter *)

Lemma inString_cons c x s :
  inString c (String x s) = Ascii.eqb c x || inString c s.
Proof. reflexivity. Qed.

Lemma inString_app c a b :
  inString c (a ++ b) = inString c a || inString c b.
Proof.
  induction a as [|x a IH]; [reflexivity|].
  change (String x a ++ b) with (String x (a ++ b)).
  rewrite !inString_cons, IH. now rewrite orb_assoc.
Qed.

Lemma Replace_zero s old new : Replace s old new 0 = s.
Proof. destruct s; reflexivity. Qed.

(** [Replace] with the count 1 rewrites the leftmost occurrence. *)
Lemma Replace_leftmost pre old new post :
  inString old pre = false ->
  Replace (pre ++ String old post) old new 1 = pre ++ new ++ post.
Proof.
  induction pre as [|x pre IH]; intros Hpre.
  - cbn [append Replace]. change (1 =? 0) with false. cbv iota.
    rewrite Ascii.eqb_refl. change (1 - 1) with 0. now rewrite Replace_zero.
  - rewrite inString_cons in Hpre. apply orb_false_iff in Hpre as [Hx Hpre].
    change (String x pre ++ String old post)
      with (String x (pre ++ String old post)).
    cbn [Replace]. change (1 =? 0) with false. cbv iota.
    rewrite Ascii.eqb_sym, Hx. now rewrite IH.
Qed.

(** Without an occurrence [Replace] changes nothing. *)
Lemma Replace_absent s old new n :
  inString old s = false -> Replace s old new n = s.
Proof.
  revert n. induction s as [|x s IH]; intros n H; [reflexivity|].
  rewrite inString_cons in H. apply orb_false_iff in H as [Hx Hs].
  cbn [Replace]. destruct (n =? 0); [reflexivity|].
  rewrite Ascii.eqb_sym, Hx. now rewrite IH.
Qed.

(** A byte that is neither in the text nor in the replacement is not in
    the result. *)
Lemma Replace_keeps_absent t s old new n :
  inString t s = false -> inString t new = false ->
  inString t (Replace s old new n) = false.
Proof.
  revert n. induction s as [|x s IH]; intros n Hs Hnew; [reflexivity|].
  pose proof Hs as Hs'.
  rewrite inString_cons in Hs. apply orb_false_iff in Hs as [Hx Hrest].
  cbn [Replace]. destruct (n =? 0); [exact Hs'|].
  destruct (Ascii.eqb x old).
  - rewrite inString_app, Hnew. simpl. now apply IH.
  - rewrite inString_cons, Hx. simpl. now apply IH.
Qed.

(** Replacing every occurrence by a text without the byte removes it. *)
Lemma ReplaceAll_removes s old new :
  inString old new = false -> inString old (ReplaceAll s old new) = false.
Proof.
  unfold ReplaceAll. intros Hnew.
  assert (G : forall n, n < 0 -> inString old (Replace s old new n) = false).
  { induction s as [|x s IH]; intros n Hn; [reflexivity|].
    cbn [Replace].
    destruct (Z.eqb_spec n 0); [lia|].
    destruct (Ascii.eqb x old) eqn:E.
    - rewrite inString_app, Hnew. simpl. apply IH. lia.
    - rewrite inString_cons, Ascii.eqb_sym, E. simpl. now apply IH. }
  apply G. lia.
Qed.

(** [ReplaceAll] by the empty text deletes the byte, by a one-byte text
    substitutes it, position by position. *)
Lemma ReplaceAll_deletes s old :
  list_ascii_of_string (ReplaceAll s old "")
  = filter (fun x => negb (Ascii.eqb x old)) (list_ascii_of_string s).
Proof.
  unfold ReplaceAll.
  assert (G : forall n, n < 0 ->
            list_ascii_of_string (Replace s old "" n)
            = filter (fun x => negb (Ascii.eqb x old)) (list_ascii_of_string s)).
  { induction s as [|x s IH]; intros n Hn; [reflexivity|].
    cbn [Replace list_ascii_of_string filter].
    destruct (Z.eqb_spec n 0); [lia|].
    destruct (Ascii.eqb x old); simpl; rewrite IH by lia; reflexivity. }
  apply G. lia.
Qed.

Lemma ReplaceAll_substitutes s old d :
  list_ascii_of_string (ReplaceAll s old (String d ""))
  = map (fun x => if Ascii.eqb x old then d else x) (list_ascii_of_string s).
Proof.
  unfold ReplaceAll.
  assert (G : forall n, n < 0 ->
            list_ascii_of_string (Replace s old (String d "") n)
            = map (fun x => if Ascii.eqb x old then d else x)
                  (list_ascii_of_string s)).
  { induction s as [|x s IH]; intros n Hn; [reflexivity|].
    cbn [Replace list_ascii_of_string map].
    destruct (Z.eqb_spec n 0); [lia|].
    destruct (Ascii.eqb x old); simpl; rewrite IH by lia; reflexivity. }
  apply G. lia.
Qed.

Lemma trimLeftByte_keeps_absent t s c :
  inString t s = false -> inString t (trimLeftByte s c) = false.
Proof.
  induction s as [|x s IH]; intros H; [reflexivity|].
  cbn [trimLeftByte]. destruct (Ascii.eqb x c); [|exact H].
  rewrite inString_cons in H. apply orb_false_iff in H as [_ H]. now apply IH.
Qed.

Lemma trimRightByte_keeps_absent t s c :
  inString t s = false -> inString t (trimRightByte s c) = false.
Proof.
  induction s as [|x s IH]; intros H; [reflexivity|].
  rewrite inString_cons in H. apply orb_false_iff in H as [Hx Hs].
  cbn [trimRightByte]. specialize (IH Hs).
  destruct (trimRightByte s c) as [|y k].
  - destruct (Ascii.eqb x c); [reflexivity|].
    rewrite inString_cons, Hx. reflexivity.
  - rewrite inString_cons, Hx. exact IH.
Qed.

Lemma firstByte_trimLeftByte s c : firstByte (trimLeftByte s c) <> Some c.
Proof.
  induction s as [|x s IH]; [discriminate|].
  cbn [trimLeftByte]. destruct (Ascii.eqb_spec x c); [exact IH|].
  simpl. congruence.
Qed.

Lemma lastByte_trimRightByte s c : lastByte (trimRightByte s c) <> Some c.
Proof.
  induction s as [|x s IH]; [discriminate|].
  cbn [trimRightByte]. destruct (trimRightByte s c) as [|y k].
  - destruct (Ascii.eqb_spec x c); [discriminate|]. simpl. congruence.
  - exact IH.
Qed.

Lemma lastByte_trimLeftByte s c :
  lastByte s <> Some c -> lastByte (trimLeftByte s c) <> Some c.
Proof.
  induction s as [|x s IH]; intros H; [exact H|].
  cbn [trimLeftByte]. destruct (Ascii.eqb x c); [|exact H].
  apply IH. destruct s; [discriminate|exact H].
Qed.

(** [Trim] leaves no cut byte at either end. *)
Lemma Trim_ends s c :
  firstByte (Trim s c) <> Some c /\ lastByte (Trim s c) <> Some c.
Proof.
  unfold Trim. split.
  - apply firstByte_trimLeftByte.
  - apply lastByte_trimLeftByte, lastByte_trimRightByte.
Qed.

Lemma Trim_keeps_absent t s c :
  inString t s = false -> inString t (Trim s c) = false.
Proof.
  intros H. unfold Trim.
  now apply trimLeftByte_keeps_absent, trimRightByte_keeps_absent.
Qed.

Lemma append_assoc (a b c : string) : (a ++ b) ++ c = a ++ (b ++ c).
Proof.
  induction a as [|x a IH]; [reflexivity|]. simpl. now rewrite IH.
Qed.

Lemma template_app s0 s l :
  template (s0 ++ s) l = s0 ++ template s l.
Proof.
  destruct l as [|[p s1] rest]; simpl; [reflexivity|].
  now rewrite <- append_assoc.
Qed.

(** When neither the pieces of the query nor the rendered values contain a
    question mark, the loop puts every value at its own placeholder. *)
Lemma bindParams_positional l : forall s0,
  inString "?" s0 = false ->
  Forall (fun ps => inString "?" (paramValue (fst ps)) = false
                    /\ inString "?" (snd ps) = false) l ->
  bindParams (template s0 l) (map fst l) = filled s0 l.
Proof.
  induction l as [|[p s] rest IH]; intros s0 H0 Hall; [reflexivity|].
  inversion Hall as [|? ? [Hp Hs] Hrest]; subst. simpl in Hp, Hs.
  cbn [template map fst bindParams filled].
  change (s0 ++ "?" ++ template s rest)
    with (s0 ++ String "?" (template s rest)).
  rewrite Replace_leftmost by assumption.
  rewrite <- template_app, <- template_app.
  rewrite IH; [| |assumption].
  - destruct rest as [|[p' s'] rest']; simpl;
      now rewrite <- !append_assoc.
  - now rewrite !inString_app, H0, Hp, Hs.
Qed.

(** The default text of an integer reads back as that integer. *)
Lemma parseInt_Sprint z : parseInt (Sprint (vInt z)) = Some z.
Proof.
  unfold parseInt, Sprint. rewrite NilZero.isi.
  - simpl. now rewrite DecimalZ.of_to.
  - destruct z; simpl; try discriminate.
    intros [= H]. now apply DecimalPos.Unsigned.to_uint_nonnil in H.
  - destruct z; simpl; try discriminate.
    intros [= H]. now apply DecimalPos.Unsigned.to_uint_nonnil in H.
Qed.

(** The two digits [hexEncode] writes for a byte read back as that byte. *)
Lemma hexValue_hexDigit c :
  hexValue (hexDigit lowerhex (N_of_ascii c / 16)) = Some (N_of_ascii c / 16)%N
  /\ hexValue (hexDigit lowerhex (N_of_ascii c mod 16))
     = Some (N_of_ascii c mod 16)%N
  /\ ascii_of_N (16 * (N_of_ascii c / 16) + N_of_ascii c mod 16) = c.
Proof.
  destruct c as [[] [] [] [] [] [] [] []]; vm_compute; repeat split.
Qed.

Lemma hexDecode_hexEncode s : hexDecode (hexEncode s) = Some s.
Proof.
  induction s as [|c s IH]; [reflexivity|].
  cbn [hexEncode hexDecode].
  destruct (hexValue_hexDigit c) as (-> & -> & E).
  now rewrite IH, E.
Qed.

(** The canonical form of a UUID of sixteen bytes: 36 bytes, a hyphen
    after the digits of the bytes 4, 6, 8 and 10, and digits that read
    back as the bytes. *)
Lemma UUID_String_canonical u :
  String.length (uuidBytes u) = 16%nat ->
  String.length (UUID_String u) = 36%nat
  /\ (forall i, In i [8; 13; 18; 23]%nat ->
        String.get i (UUID_String u) = Some "-"%char)
  /\ hexDecode (uuidDigits (UUID_String u)) = Some (uuidBytes u).
Proof.
  destruct u as [s]. cbn [uuidBytes]. intros Hlen.
  do 16 (destruct s as [|? s]; [discriminate Hlen|]).
  destruct s; [clear Hlen|discriminate Hlen].
  split; [reflexivity|]. split.
  - intros i [<-|[<-|[<-|[<-|[]]]]]; reflexivity.
  - rewrite <- hexDecode_hexEncode. reflexivity.
Qed.

Section FormatterFacts.

Context {any : Type}.
Variable sqlx_Named : string -> any -> go (result (string * list param)).

(** What [ParseQuery] returns when the names resolve. *)
Lemma ParseQuery_resolved query args q params :
  sqlx_Named query args = Return (Ok (q, params)) ->
  ParseQuery sqlx_Named query args
  = Return (Trim (ReplaceAll (ReplaceAll (bindParams q params) tab "")
                             newline " ") " ").
Proof. intros H. unfold ParseQuery. now rewrite H. Qed.

(** C8, as the code has it.  [ParseQuery] returns a string whenever the
    name resolution returns, and it panics exactly when the name
    resolution panics: it does not recover.  When the resolution fails
    the answer is the text of its error.  When it succeeds the values are
    bound in the order of the parameters, each in place of the leftmost
    question mark of the text so far, which puts every value at its own
    placeholder when neither the query's pieces nor the rendered values
    contain a question mark; a string, a byte sequence and a UUID are
    rendered between single quotes, the UUID in its canonical form of 36
    bytes; an integer is rendered as its decimal numeral, a boolean as
    [true] or [false], any other value by its default text; then every
    tab is deleted, every newline becomes one space and the spaces at
    both ends are cut, so the answer has no tab, no newline and no space
    at either end.  When the resolution gives the query
    [SELECT * FROM t WHERE id = ?] with the value "abc", the answer is
    [SELECT * FROM t WHERE id = 'abc']. *)
Theorem ParseQuery_renders query args :
  (ParseQuery sqlx_Named query args = Panic
   <-> sqlx_Named query args = Panic)
  /\ (forall r, sqlx_Named query args = Return r ->
      exists out, ParseQuery sqlx_Named query args = Return out)
  /\ (forall err, sqlx_Named query args = Return (Err err) ->
     ParseQuery sqlx_Named query args = Return (Error err))
  /\ (forall q params, sqlx_Named query args = Return (Ok (q, params)) ->
     exists out,
       ParseQuery sqlx_Named query args = Return out
       /\ out = Trim (ReplaceAll (ReplaceAll (bindParams q params) tab "")
                                 newline " ") " "
       /\ inString tab out = false
       /\ inString newline out = false
       /\ firstByte out <> Some " "%char
       /\ lastByte out <> Some " "%char)
  /\ (forall q p ps,
     bindParams q (p :: ps) = bindParams (Replace q "?" (paramValue p) 1) ps)
  /\ (forall pre post v,
     inString "?" pre = false ->
     Replace (pre ++ "?" ++ post) "?" v 1 = pre ++ v ++ post)
  /\ (forall s0 l,
     inString "?" s0 = false ->
     Forall (fun ps => inString "?" (paramValue (fst ps)) = false
                       /\ inString "?" (snd ps) = false) l ->
     bindParams (template s0 l) (map fst l) = filled s0 l)
  /\ (forall v, paramValue (pString v) = "'" ++ v ++ "'")
  /\ (forall v, paramValue (pBytes v) = "'" ++ v ++ "'")
  /\ (forall v, paramValue (pUUID v) = "'" ++ UUID_String v ++ "'")
  /\ (forall v, String.length (uuidBytes v) = 16%nat ->
     String.length (UUID_String v) = 36%nat
     /\ (forall i, In i [8; 13; 18; 23]%nat ->
           String.get i (UUID_String v) = Some "-"%char)
     /\ hexDecode (uuidDigits (UUID_String v)) = Some (uuidBytes v))
  /\ (forall z, parseInt (paramValue (pOther (vInt z))) = Some z)
  /\ paramValue (pOther (vBool true)) = "true"
  /\ paramValue (pOther (vBool false)) = "false"
  /\ (forall text, paramValue (pOther (vText text)) = text)
  /\ (forall s,
     list_ascii_of_string (ReplaceAll s tab "")
     = filter (fun x => negb (Ascii.eqb x tab)) (list_ascii_of_string s))
  /\ (forall s,
     list_ascii_of_string (ReplaceAll s newline " ")
     = map (fun x => if Ascii.eqb x newline then " "%char else x)
           (list_ascii_of_string s))
  /\ (sqlx_Named query args
      = Return (Ok ("SELECT * FROM t WHERE id = ?", [pString "abc"])) ->
      ParseQuery sqlx_Named query args
      = Return "SELECT * FROM t WHERE id = 'abc'").
Proof.
  split.
  { unfold ParseQuery.
    destruct (sqlx_Named query args) as [[[q params]|err]|]; simpl;
      split; intros H; try discriminate; reflexivity. }
  split.
  { intros r H. unfold ParseQuery. rewrite H.
    destruct r as [[q params]|err]; simpl; eexists; reflexivity. }
  split. { intros err H. unfold ParseQuery. now rewrite H. }
  split.
  { intros q params H. rewrite (ParseQuery_resolved _ _ _ _ H).
    eexists. split; [reflexivity|]. split; [reflexivity|].
    split; [|split; [|apply Trim_ends]].
    - apply Trim_keeps_absent, Replace_keeps_absent; [|reflexivity].
      now apply ReplaceAll_removes.
    - apply Trim_keeps_absent. now apply ReplaceAll_removes. }
  split. { reflexivity. }
  split. { intros pre post v Hpre. now apply Replace_leftmost. }
  split. { intros s0 l. apply bindParams_positional. }
  split. { reflexivity. }
  split. { reflexivity. }
  split. { reflexivity. }
  split. { intros v. apply UUID_String_canonical. }
  split. { intros z. apply parseInt_Sprint. }
  split. { reflexivity. }
  split. { reflexivity. }
  split. { reflexivity. }
  split. { intros s. apply ReplaceAll_deletes. }
  split. { intros s. apply ReplaceAll_substitutes. }
  intros H. rewrite (ParseQuery_resolved _ _ _ _ H). reflexivity.
Qed.

(** C9. Each value is put in place of the leftmost question mark of the
    partly substituted text.  So when the rendered first value contains
    a question mark (it reads [a ? b]), the second value lands inside it,
    between [a] and [b], and the query's own next placeholder, which is
    in [s1], stays as it was. *)
Theorem ParseQuery_binds_inside_earlier_value
  query args s0 s1 a b p1 p2 :
  inString "?" s0 = false ->
  inString "?" a = false ->
  paramValue p1 = a ++ "?" ++ b ->
  bindParams (s0 ++ "?" ++ s1) [p1; p2]
  = s0 ++ a ++ paramValue p2 ++ b ++ s1
  /\ (sqlx_Named query args = Return (Ok (s0 ++ "?" ++ s1, [p1; p2])) ->
      ParseQuery sqlx_Named query args
      = Return (Trim (ReplaceAll
                        (ReplaceAll (s0 ++ a ++ paramValue p2 ++ b ++ s1)
                                    tab "")
                        newline " ") " ")).
Proof.
  intros H0 Ha Hp1.
  assert (E : bindParams (s0 ++ "?" ++ s1) [p1; p2]
              = s0 ++ a ++ paramValue p2 ++ b ++ s1).
  { cbn [bindParams].
    change (s0 ++ "?" ++ s1) with (s0 ++ String "?" s1).
    rewrite Replace_leftmost by assumption. rewrite Hp1.
    replace (s0 ++ (a ++ "?" ++ b) ++ s1)
      with ((s0 ++ a) ++ String "?" (b ++ s1)).
    - rewrite Replace_leftmost.
      + now rewrite !append_assoc.
      + now rewrite inString_app, H0, Ha.
    - rewrite !append_assoc. reflexivity. }
  split; [exact E|].
  intros H. rewrite (ParseQuery_resolved _ _ _ _ H). now rewrite E.
Qed.

End FormatterFacts.

(* ================================================================== *)
(** * The statements on the sample collaborators *)

Lemma RunQuery_first_row_only_witness :
  RunQuery tt Sample.scan context_Background Sample.db "three" 0 = (None, 7)
  /\ RunQuery tt Sample.scan context_Background Sample.db "none" 5
     = (Some ErrDBNotFound, 5).
Proof.
  split.
  - apply (proj2 (proj1 (proj2 (RunQuery_first_row_only tt Sample.scan
                           context_Background Sample.db "three" 0
                           (mkRows [7; 8; 9] None) eq_refl))
                        7 [8; 9] eq_refl) 7).
    reflexivity.
  - apply (proj1 (RunQuery_first_row_only tt Sample.scan
                    context_Background Sample.db "none" 5
                    (mkRows [] None) eq_refl) eq_refl).
Defined.

Lemma RunQuerySlice_all_or_nothing_witness :
  RunQuerySlice tt 0 Sample.scan context_Background Sample.db "three" [1]
  = (None, [7; 8; 9])
  /\ RunQuerySlice tt 0 Sample.scan context_Background Sample.db "bad" [1]
     = (Some (errorString "sql: Scan error"), [1]).
Proof.
  split.
  - apply (proj1 (proj1 (proj2 (proj1
             (RunQuerySlice_all_or_nothing tt 0 Sample.scan
                context_Background Sample.db "three" [1])
             (mkRows [7; 8; 9] None) eq_refl))
             ltac:(repeat constructor))).
  - apply (proj2 (proj2 (proj1
             (RunQuerySlice_all_or_nothing tt 0 Sample.scan
                context_Background Sample.db "bad" [1])
             (mkRows [7; -1; 9] None) eq_refl))
             [7] (-1) [9] (errorString "sql: Scan error") eq_refl
             ltac:(repeat constructor) eq_refl).
Defined.

Lemma RunQuerySlice_assigns_a_truncated_result_witness :
  RunQuerySlice tt 0 Sample.scan context_Background Fixture.droppedCursor
                "three" [1]
  = (None, [7]).
Proof.
  apply (RunQuerySlice_assigns_a_truncated_result tt 0 Sample.scan
           context_Background Fixture.droppedCursor "three" [1]
           (mkRows [7] (Some Sample.connRefused)) Sample.connRefused
           eq_refl eq_refl).
  repeat constructor.
Defined.

Lemma RunCUD_classifies_by_code_witness :
  RunCUD context_Background Sample.db "dup" tt = Some ErrDBDuplicatedEntry
  /\ RunCUD context_Background Sample.db "missing" tt = Some ErrUndefinedTable
  /\ RunCUD context_Background Sample.db "noop" tt = None.
Proof.
  split; [|split].
  - apply (proj1 (RunCUD_classifies_by_code context_Background Sample.db
                    "dup" tt) "ERROR"
                 "duplicate key value violates unique constraint" eq_refl).
  - apply (proj1 (proj2 (RunCUD_classifies_by_code context_Background
                           Sample.db "missing" tt))
                 "ERROR" "relation does not exist" eq_refl).
  - apply (proj1 (proj2 (proj2 (RunCUD_classifies_by_code context_Background
                                  Sample.db "noop" tt)))
                 (mkResult 0) eq_refl).
Defined.

(** On a read path the unique-violation code is not turned into
    [ErrDBDuplicatedEntry], and the error comes back without a wrapper. *)
Lemma read_path_keeps_unique_violation :
  fst (RunQuery tt Sample.scan context_Background Sample.db "dup" 0)
  = Some Sample.dupKey
  /\ fst (RunQuery tt Sample.scan context_Background Sample.db "dup" 0)
     <> Some ErrDBDuplicatedEntry
  /\ fst (RunQuerySlice tt 0 Sample.scan context_Background Sample.db "dup" [])
     <> Some ErrDBDuplicatedEntry
  /\ Unwrap Sample.dupKey = [].
Proof. repeat split; discriminate. Qed.

Lemma read_paths_translate_undefined_table_only_witness :
  RunQuery tt Sample.scan context_Background Sample.db "missing" 0
  = (Some ErrUndefinedTable, 0)
  /\ RunQuerySlice tt 0 Sample.scan context_Background Sample.db "dup" [1]
     = (Some Sample.dupKey, [1]).
Proof.
  split.
  - apply (proj1 (read_paths_translate_undefined_table_only tt 0 Sample.scan
                    context_Background Sample.db "missing" 0 [1]
                    Sample.noTable eq_refl)).
    exists "ERROR", "relation does not exist". reflexivity.
  - apply (proj2 (proj2 (read_paths_translate_undefined_table_only tt 0
                    Sample.scan context_Background Sample.db "dup" 0 [1]
                    Sample.dupKey eq_refl))
                 "ERROR" "duplicate key value violates unique constraint"
                 eq_refl).
Defined.

Lemma deadPool_alwaysFails : alwaysFails Sample.deadPool.
Proof. intros ctx t. discriminate. Defined.

Lemma StatusCheck_gives_up_witness :
  exists probes ce pe w',
    StatusCheck 3 context_Background Sample.deadPool Sample.w0
    = Some (Some (pingFailure ce pe), w')
    /\ ctxErr (effectiveCtx context_Background (now Sample.w0)) (now w')
       = Some ce
    /\ lastError probes = Some pe
    /\ (1 <= List.length probes <= 3)%nat
    /\ trace w' = (trace Sample.w0 ++ retryTrace 1 probes)%list.
Proof.
  apply (proj2 (proj2 (StatusCheck_gives_up Sample.deadPool
                         context_Background Sample.w0 deadPool_alwaysFails))
               eq_refl 3%nat (le_n 3)).
Defined.

Lemma StatusCheck_probes_a_finished_context_witness :
  StatusCheck 1 Sample.cancelled Sample.deadPool Sample.w0
  = Some (Some (pingFailure context_Canceled Sample.connRefused),
          mkWorld (0 + 2000000 + 1 * Second)
                  [EvPing 0 (Some Sample.connRefused);
                   EvSleep (1 * 1 * Second)]).
Proof.
  apply (proj2 (StatusCheck_probes_a_finished_context 0%nat Sample.deadPool
                  Sample.cancelled Sample.w0 context_Canceled eq_refl)
               Sample.connRefused 2000000%N eq_refl).
Defined.

Lemma Open_rejects_incomplete_TLS_witness :
  Open Sample.render Sample.opener 5 Sample.halfSecured Sample.w0
  = Some (Err (errorString "SSL certificates not properly configured"),
          Sample.w0).
Proof.
  apply (proj2 (Open_rejects_incomplete_TLS Sample.render Sample.opener 5%nat
                  Sample.halfSecured Sample.w0 eq_refl
                  (or_intror (or_introl eq_refl)))).
Defined.

Lemma Open_connection_target_witness :
  RawQuery (connURL Sample.secured "require")
  = "application_name=lab+api&search_path=public&sslcert=%2Fcert.pem&sslkey=%2Fkey.pem&sslmode=require&sslrootcert=%2Fca.pem&timezone=utc".
Proof.
  apply (proj1 (proj2 (proj2 (proj2 (proj2 (proj2 (proj2 (proj2
           (Open_connection_target Sample.secured "require" eq_refl))))))))).
Defined.

Lemma ParseQuery_renders_witness :
  ParseQuery Sample.named "SELECT * FROM t WHERE id = ?" [pString "abc"]
  = Return "SELECT * FROM t WHERE id = 'abc'"
  /\ exists out,
       ParseQuery Sample.named
         ("  id = ? AND n = ?" ++ String newline (String tab "AND ok = ?  "))
         [pUUID (mkUUID "0123456789abcdef"); pOther (vInt (-42));
          pOther (vBool true)]
       = Return out
       /\ out = "id = '30313233-3435-3637-3839-616263646566' AND n = -42 AND ok = true".
Proof.
  split.
  - destruct (ParseQuery_renders Sample.named "SELECT * FROM t WHERE id = ?"
                [pString "abc"])
      as (_ & _ & _ & _ & _ & _ & _ & _ & _ & _ & _ & _ & _ & _ & _ & _ & _
          & H).
    exact (H eq_refl).
  - destruct (ParseQuery_renders Sample.named
                ("  id = ? AND n = ?"
                 ++ String newline (String tab "AND ok = ?  "))
                [pUUID (mkUUID "0123456789abcdef"); pOther (vInt (-42));
                 pOther (vBool true)])
      as (_ & _ & _ & H & _).
    destruct (H _ _ eq_refl) as (out & Hout & -> & _).
    eexists. split; [exact Hout|reflexivity].
Defined.

(** With a nil argument the name resolution panics, and so does
    [ParseQuery]: no string is returned. *)
Lemma ParseQuery_panics_with_the_name_resolution :
  ParseQuery Fixture.namedOrPanic "SELECT 1" None = Panic
  /\ ~ exists out, ParseQuery Fixture.namedOrPanic "SELECT 1" None = Return out.
Proof. split; [reflexivity|]. intros [out H]. discriminate H. Qed.

Lemma ParseQuery_binds_inside_earlier_value_witness :
  ParseQuery Sample.named "a = ? AND b = ?" [pString "x?"; pString "y"]
  = Return "a = 'x'y'' AND b = ?".
Proof.
  apply (proj2 (ParseQuery_binds_inside_earlier_value Sample.named
                  "a = ? AND b = ?" [pString "x?"; pString "y"]
                  "a = " " AND b = ?" "'x" "'" (pString "x?") (pString "y")
                  eq_refl eq_refl eq_refl) eq_refl).
Defined.

Lemma StatusCheck_in_machine_range_witness :
  exists evs,
    trace (mkWorld 6006000000
             [EvPing 0 (Some Sample.connRefused); EvSleep 1000000000;
              EvPing 1002000000 (Some Sample.connRefused); EvSleep 2000000000;
              EvPing 3004000000 (Some Sample.connRefused); EvSleep 3000000000])
    = (trace Sample.w0 ++ evs)%list
    /\ Forall sleepInRange evs.
Proof.
  apply (StatusCheck_in_machine_range Sample.deadPool context_Background
           Sample.w0 (5 * Second) 3%nat
           (Some (pingFailure context_DeadlineExceeded Sample.connRefused))
           _ eq_refl).
  - unfold maxDuration. simpl. lia.
  - reflexivity.
Defined.

Lemma Open_sizes_pool_before_traffic_witness :
  exists r w' outcome evs,
    Open Sample.render Sample.opener 3 Sample.secured Sample.w0 = Some (r, w')
    /\ trace w'
       = (trace Sample.w0
          ++ [EvSqlxOpen "pgx" (Sample.render (connURL Sample.secured "require"));
              EvSetMaxIdleConns 2; EvSetMaxOpenConns 4;
              EvSetConnMaxIdleTime (60 * Second);
              EvPing 0 outcome]
          ++ evs)%list
    /\ (r = Ok Sample.deadPool
        \/ exists e,
             r = Err (wrapError ("database status check: " ++ Error e) e)).
Proof.
  apply (Open_sizes_pool_before_traffic Sample.render Sample.opener 3
           Sample.secured Sample.w0 "require" Sample.deadPool
           eq_refl eq_refl (le_n 3)).
Defined.

(* ================================================================== *)
(** * More on the health check *)

(** What a run of the retry loop against a probe that always fails looks
    like, whatever fuel it was given. *)
Lemma pingLoop_failed_inv db ctx :
  alwaysFails db ->
  forall fuel a w r w',
    1 <= a ->
    pingLoop fuel db ctx a w = Some (r, w') ->
    exists probes ce pe,
      r = Some (pingFailure ce pe)
      /\ ctxErr ctx (now w') = Some ce
      /\ lastError probes = Some pe
      /\ probes <> []
      /\ trace w' = (trace w ++ retryTrace a probes)%list
      /\ now w + backoffTotal a (List.length probes) <= now w'.
Proof.
  intros Hfail. induction fuel as [|fuel IH]; intros a w r w' Ha Hrun;
    [discriminate|].
  rewrite pingLoop_step in Hrun. cbv zeta in Hrun.
  pose proof (Hfail ctx (now w)) as Hp.
  destruct (PingContext db ctx (now w)) as [[pe|] took]; simpl in *;
    [|congruence].
  destruct (ctxErr ctx _) as [ce|] eqn:E.
  - injection Hrun as <- <-. simpl.
    exists [(now w, pe)], ce, pe. repeat split; auto.
    + discriminate.
    + simpl. now rewrite <- app_assoc.
    + simpl. unfold Second. lia.
  - apply IH in Hrun as (probes & ce & pe' & -> & Hce & Hlast & Hne & Htr & Ht);
      [|lia]. simpl in Htr, Ht.
    exists ((now w, pe) :: probes), ce, pe'. repeat split; auto.
    + unfold lastError in *. simpl. destruct probes; [congruence|exact Hlast].
    + discriminate.
    + rewrite Htr. simpl. now rewrite <- !app_assoc.
    + cbn [List.length backoffTotal]. unfold Second in *. lia.
Qed.

Lemma StatusCheck_failed_inv db ctx fuel w r w' :
  alwaysFails db ->
  StatusCheck fuel ctx db w = Some (r, w') ->
  exists probes ce pe,
    r = Some (pingFailure ce pe)
    /\ ctxErr (effectiveCtx ctx (now w)) (now w') = Some ce
    /\ lastError probes = Some pe
    /\ probes <> []
    /\ trace w' = (trace w ++ retryTrace 1 probes)%list
    /\ now w + backoffTotal 1 (List.length probes) <= now w'.
Proof.
  intros Hfail. rewrite StatusCheck_run. cbv zeta.
  destruct (pingLoop fuel db (effectiveCtx ctx (now w)) 1 w)
    as [[r0 w0]|] eqn:Hloop; [|discriminate].
  destruct (pingLoop_failed_inv db _ Hfail fuel 1 w r0 w0 ltac:(lia) Hloop)
    as (probes & ce & pe & -> & Hce & Hlast & Hne & Htr & Ht).
  intros [= <- <-]. exists probes, ce, pe. auto 10.
Qed.

(** A context nobody cancels reports the deadline error, and only from
    its deadline on. *)
Lemma ctxErr_uncancelled ctx t e :
  ctxCancelAt ctx = None -> ctxErr ctx t = Some e ->
  e = context_DeadlineExceeded
  /\ exists D, ctxDeadline ctx = Some D /\ D <= t.
Proof.
  unfold ctxErr, reached. intros ->.
  destruct (ctxDeadline ctx) as [D|]; [|discriminate].
  destruct (Z.leb_spec D t); [|discriminate].
  intros [= <-]. eauto.
Qed.

Lemma effectiveCtx_cancelAt ctx t :
  ctxCancelAt (effectiveCtx ctx t) = ctxCancelAt ctx.
Proof.
  unfold effectiveCtx. destruct (snd (Deadline ctx)); reflexivity.
Qed.

(** Against a probe that always fails and under a context nobody cancels,
    the health check does not give up before the deadline: it returns at
    or after it, no earlier than the sum of its sleeps allows, and the
    context error it wraps is the deadline error.  With the default
    deadline that is at least five seconds after the call. *)
Theorem StatusCheck_waits_for_the_deadline fuel ctx db w r w' :
  alwaysFails db ->
  ctxCancelAt ctx = None ->
  StatusCheck fuel ctx db w = Some (r, w') ->
  exists D pe probes,
    ctxDeadline (effectiveCtx ctx (now w)) = Some D
    /\ (ctxDeadline ctx = None -> D = now w + 5 * Second)
    /\ r = Some (pingFailure context_DeadlineExceeded pe)
    /\ lastError probes = Some pe
    /\ trace w' = (trace w ++ retryTrace 1 probes)%list
    /\ D <= now w'
    /\ now w + backoffTotal 1 (List.length probes) <= now w'.
Proof.
  intros Hfail Hcancel Hrun.
  destruct (StatusCheck_failed_inv db ctx fuel w r w' Hfail Hrun)
    as (probes & ce & pe & -> & Hce & Hlast & Hne & Htr & Ht).
  apply ctxErr_uncancelled in Hce as (-> & D & HD & Hle);
    [|now rewrite effectiveCtx_cancelAt].
  exists D, pe, probes. repeat split; auto.
  intros Hnone. revert HD.
  unfold effectiveCtx, Deadline, context_WithTimeout. rewrite Hnone. simpl.
  intros [= <-]. unfold Second. lia.
Qed.

(** The two ways the retry loop ends: with the wrapped pair of errors
    after a run of failed probes, or with the [break] after a run of
    failed probes and one that succeeded. *)
Lemma pingLoop_inv db ctx :
  forall fuel a w r w',
    pingLoop fuel db ctx a w = Some (r, w') ->
    exists probes,
      (exists ce pe,
         r = Some (pingFailure ce pe)
         /\ probes <> []
         /\ lastError probes = Some pe
         /\ ctxErr ctx (now w') = Some ce
         /\ trace w' = (trace w ++ retryTrace a probes)%list)
      \/ (exists t took,
         r = None
         /\ trace w' = (trace w ++ retryTrace a probes ++ [EvPing t None])%list
         /\ PingContext db ctx t = (None, took)
         /\ now w' = t + Z.of_N took).
Proof.
  induction fuel as [|fuel IH]; intros a w r w' Hrun; [discriminate|].
  rewrite pingLoop_step in Hrun. cbv zeta in Hrun.
  destruct (PingContext db ctx (now w)) as [[pe|] took] eqn:Hping;
    simpl in Hrun.
  - destruct (ctxErr ctx _) as [ce|] eqn:E.
    + injection Hrun as <- <-. exists [(now w, pe)]. left. exists ce, pe.
      simpl. repeat split; auto; [discriminate|now rewrite <- app_assoc].
    + apply IH in Hrun as [probes [(ce & pe' & -> & Hne & Hlast & Hce & Htr)
                                  |(t & took' & -> & Htr & Hp & Hnow)]];
        exists ((now w, pe) :: probes); simpl in Htr.
      * left. exists ce, pe'. repeat split; auto; [discriminate| |].
        -- unfold lastError in *. simpl.
           destruct probes; [congruence|exact Hlast].
        -- rewrite Htr. simpl. now rewrite <- !app_assoc.
      * right. exists t, took'. repeat split; auto.
        rewrite Htr. simpl. now rewrite <- !app_assoc.
  - injection Hrun as <- <-. exists []. right. exists (now w), took.
    simpl. repeat split; auto.
Qed.

(** The three ways the health check ends.  [A]: out of the retry loop,
    with the wrapped pair.  [B]: after a ping that succeeded, with the
    bare error of a context that is done by then, and without a query.
    [C]: after a ping that succeeded under a live context, with whatever
    the round-trip query gave. *)
Lemma StatusCheck_outcomes fuel ctx db w r w' :
  StatusCheck fuel ctx db w = Some (r, w') ->
  exists probes,
    (exists ce pe,
       r = Some (pingFailure ce pe)
       /\ probes <> []
       /\ lastError probes = Some pe
       /\ ctxErr (effectiveCtx ctx (now w)) (now w') = Some ce
       /\ trace w' = (trace w ++ retryTrace 1 probes)%list)
    \/ (exists t took ce,
       r = Some ce
       /\ PingContext db (effectiveCtx ctx (now w)) t = (None, took)
       /\ ctxErr (effectiveCtx ctx (now w)) (t + Z.of_N took) = Some ce
       /\ trace w' = (trace w ++ retryTrace 1 probes ++ [EvPing t None])%list)
    \/ (exists t took,
       r = fst (QueryRowScan db (effectiveCtx ctx (now w)) "SELECT true"
                             (t + Z.of_N took))
       /\ PingContext db (effectiveCtx ctx (now w)) t = (None, took)
       /\ ctxErr (effectiveCtx ctx (now w)) (t + Z.of_N took) = None
       /\ trace w'
          = (trace w ++ retryTrace 1 probes
             ++ [EvPing t None; EvQueryRow "SELECT true"])%list).
Proof.
  rewrite StatusCheck_run. cbv zeta.
  destruct (pingLoop fuel db (effectiveCtx ctx (now w)) 1 w)
    as [[r0 w0]|] eqn:Hloop; [|discriminate].
  intros Hrun.
  apply pingLoop_inv in Hloop
    as [probes [(ce & pe & -> & Hne & Hlast & Hce & Htr)
               |(t & took & -> & Htr & Hp & Hnow)]]; exists probes.
  - injection Hrun as <- <-. left. exists ce, pe. auto.
  - destruct (ctxErr _ (now w0)) as [ce|] eqn:E.
    + injection Hrun as <- <-. right. left. exists t, took, ce.
      rewrite <- Hnow. auto.
    + revert Hrun. run_world. rewrite Hnow in *.
      destruct (QueryRowScan db _ "SELECT true" (t + Z.of_N took))
        as [err tq] eqn:Hq.
      simpl. intros [= <- <-]. right. right. exists t, took. simpl.
      rewrite Hq. repeat split; auto.
      rewrite Htr, <- !app_assoc. reflexivity.
Qed.

Lemma StatusCheck_nil_inv fuel ctx db w w' :
  StatusCheck fuel ctx db w = Some (None, w') ->
  exists probes t,
    trace w'
    = (trace w ++ retryTrace 1 probes
       ++ [EvPing t None; EvQueryRow "SELECT true"])%list.
Proof.
  intros Hrun.
  apply StatusCheck_outcomes in Hrun
    as [probes [(ce & pe & [=] & _)
               |[(t & took & ce & [=] & _)
                |(t & took & Hr & Hp & Hlive & Htr)]]].
  exists probes, t. exact Htr.
Qed.

(** A nil error from the health check means that the round trip took
    place: after however many failed probes, each followed by its sleep,
    a ping succeeded, the context was still live when it returned, and
    the query [SELECT true] was sent and answered without error; the
    query is the last thing the check did. *)
Theorem StatusCheck_nil_means_round_trip fuel ctx db w w' :
  StatusCheck fuel ctx db w = Some (None, w') ->
  exists probes t took,
    PingContext db (effectiveCtx ctx (now w)) t = (None, took)
    /\ ctxErr (effectiveCtx ctx (now w)) (t + Z.of_N took) = None
    /\ fst (QueryRowScan db (effectiveCtx ctx (now w)) "SELECT true"
                         (t + Z.of_N took)) = None
    /\ trace w'
       = (trace w ++ retryTrace 1 probes
          ++ [EvPing t None; EvQueryRow "SELECT true"])%list.
Proof.
  intros Hrun.
  apply StatusCheck_outcomes in Hrun
    as [probes [(ce & pe & [=] & _)
               |[(t & took & ce & [=] & _)
                |(t & took & Hr & Hp & Hlive & Htr)]]].
  exists probes, t, took. auto.
Qed.

(** A ping that succeeds too late does not count: when the first ping
    succeeds but the context is done by the time it returns, the health
    check returns the bare error of the context, not wrapped, and sends
    no query. *)
Theorem StatusCheck_late_ping_reports_the_context fuel ctx db w took ce :
  PingContext db (effectiveCtx ctx (now w)) (now w) = (None, took) ->
  ctxErr (effectiveCtx ctx (now w)) (now w + Z.of_N took) = Some ce ->
  StatusCheck (S fuel) ctx db w
  = Some (Some ce,
          mkWorld (now w + Z.of_N took) (trace w ++ [EvPing (now w) None])).
Proof.
  intros Hping Hce. rewrite StatusCheck_run. cbv zeta.
  rewrite pingLoop_step. cbv zeta. rewrite Hping. simpl. now rewrite Hce.
Qed.

(* ================================================================== *)
(** * More on the bootstrap *)

(** The renderer and the driver are fixed for the statements about [Open]. *)
Section MoreBootstrapFacts.

Variable URL_String : URL -> string.
Variable sqlx_Open : string -> string -> result DB.

(** The world in which [Open] starts the health check: the pool has been
    asked for and sized, the clock has not moved. *)
Lemma Open_run fuel cfg w sslMode db :
  getSSLMode cfg = Ok sslMode ->
  sqlx_Open "pgx" (URL_String (connURL cfg sslMode)) = Ok db ->
  Open URL_String sqlx_Open fuel cfg w
  = match StatusCheck fuel
            (context_WithTimeout context_Background (Second * 5) (now w)) db
            (mkWorld (now w)
               (trace w
                ++ [EvSqlxOpen "pgx" (URL_String (connURL cfg sslMode));
                    EvSetMaxIdleConns (MaxIdleConns cfg);
                    EvSetMaxOpenConns (MaxOpenConns cfg);
                    EvSetConnMaxIdleTime (IdleConnTimeout cfg)]))
    with
    | Some (Some err, w') =>
        Some (Err (wrapError ("database status check: " ++ Error err) err), w')
    | Some (None, w') => Some (Ok db, w')
    | None => None
    end.
Proof.
  intros H Hdb. unfold Open. rewrite H.
  unfold doSqlxOpen, bind, emit, ret, time_Now. cbn [now trace].
  rewrite Hdb. cbv beta iota zeta. cbn [now trace].
  rewrite <- !app_assoc. cbn [List.app].
  destruct (StatusCheck fuel _ db _) as [[[e|] w']|]; reflexivity.
Qed.

(** A pool reaches the caller only after it has answered: when [Open]
    returns a pool, it is the one the driver handed out for the connection
    target, and the last two things [Open] did were a ping that succeeded
    and the round-trip query. *)
Theorem Open_hands_out_only_checked_pools fuel cfg w db w' :
  Open URL_String sqlx_Open fuel cfg w = Some (Ok db, w') ->
  exists sslMode probes t,
    getSSLMode cfg = Ok sslMode
    /\ sqlx_Open "pgx" (URL_String (connURL cfg sslMode)) = Ok db
    /\ trace w'
       = (trace w
          ++ [EvSqlxOpen "pgx" (URL_String (connURL cfg sslMode));
              EvSetMaxIdleConns (MaxIdleConns cfg);
              EvSetMaxOpenConns (MaxOpenConns cfg);
              EvSetConnMaxIdleTime (IdleConnTimeout cfg)]
          ++ retryTrace 1 probes
          ++ [EvPing t None; EvQueryRow "SELECT true"])%list.
Proof.
  intros Hrun.
  destruct (getSSLMode cfg) as [sslMode|err] eqn:Hmode;
    [|unfold Open in Hrun; rewrite Hmode in Hrun; discriminate].
  destruct (sqlx_Open "pgx" (URL_String (connURL cfg sslMode)))
    as [db0|err] eqn:Hdb.
  - rewrite (Open_run fuel cfg w sslMode db0 Hmode Hdb) in Hrun.
    destruct (StatusCheck fuel _ db0 _) as [[[e|] w1]|] eqn:Hsc;
      try discriminate.
    injection Hrun as <- <-.
    apply StatusCheck_nil_inv in Hsc as (probes & t & Htr).
    exists sslMode, probes, t. repeat split; auto.
    rewrite Htr. simpl. rewrite <- !app_assoc. reflexivity.
  - rewrite (Open_driver_refuses URL_String sqlx_Open fuel cfg w sslMode err
               Hmode Hdb) in Hrun.
    discriminate.
Qed.

(** Against a database that never answers a ping, [Open] fails, and it
    takes its five seconds to do so: it returns the deadline error and
    the error of the last ping, wrapped twice, after one to three
    attempts and no earlier than five seconds after the call. *)
Theorem Open_unreachable_database fuel cfg w sslMode db :
  getSSLMode cfg = Ok sslMode ->
  sqlx_Open "pgx" (URL_String (connURL cfg sslMode)) = Ok db ->
  alwaysFails db ->
  (3 <= fuel)%nat ->
  exists pe probes w',
    Open URL_String sqlx_Open fuel cfg w
    = Some (Err (wrapError
                   ("database status check: context deadline exceeded"
                    ++ " : database: " ++ Error pe)
                   (pingFailure context_DeadlineExceeded pe)), w')
    /\ lastError probes = Some pe
    /\ (1 <= List.length probes <= 3)%nat
    /\ now w + 5 * Second <= now w'
    /\ trace w'
       = (trace w
          ++ [EvSqlxOpen "pgx" (URL_String (connURL cfg sslMode));
              EvSetMaxIdleConns (MaxIdleConns cfg);
              EvSetMaxOpenConns (MaxOpenConns cfg);
              EvSetConnMaxIdleTime (IdleConnTimeout cfg)]
          ++ retryTrace 1 probes)%list.
Proof.
  intros Hmode Hdb Hfail Hfuel.
  rewrite (Open_run fuel cfg w sslMode db Hmode Hdb).
  set (ctx := context_WithTimeout context_Background (Second * 5) (now w)).
  set (w1 := mkWorld (now w) _).
  assert (Heff : effectiveCtx ctx (now w1) = ctx) by reflexivity.
  destruct (StatusCheck_fails_within db ctx w1 (now w + 5 * Second) 2 fuel Hfail)
    as (probes & ce & pe & w' & Hrun & Hce & Hlast & Hlen & Htr).
  - rewrite Heff. unfold ctx, context_WithTimeout. simpl.
    f_equal; unfold Second; lia.
  - simpl. unfold Second. lia.
  - lia.
  - rewrite Heff in Hce.
    apply ctxErr_uncancelled in Hce as (-> & D & HD & Hle); [|reflexivity].
    rewrite Hrun. exists pe, probes, w'. subst ctx w1. simpl in *.
    injection HD as <-.
    repeat split; auto; try lia.
    rewrite Htr. rewrite <- !app_assoc. reflexivity.
Qed.

(** With TLS disabled the three certificate fields play no part: two
    configurations that differ only in them are opened alike. *)
Theorem Open_ignores_certificates_without_TLS fuel cfg cfg' w :
  EnableTLS cfg = false -> EnableTLS cfg' = false ->
  User cfg = User cfg' -> Password cfg = Password cfg' ->
  Host cfg = Host cfg' -> Port cfg = Port cfg' -> Name cfg = Name cfg' ->
  Schema cfg = Schema cfg' ->
  MaxIdleConns cfg = MaxIdleConns cfg' ->
  MaxOpenConns cfg = MaxOpenConns cfg' ->
  IdleConnTimeout cfg = IdleConnTimeout cfg' ->
  ApplicationName cfg = ApplicationName cfg' ->
  Open URL_String sqlx_Open fuel cfg w = Open URL_String sqlx_Open fuel cfg' w.
Proof.
  intros Htls Htls' Hu Hp Hh Hpo Hn Hs Hi Ho Ht Ha.
  unfold Open, getSSLMode, connURL, connValues.
  rewrite Htls, Htls', Hu, Hp, Hh, Hpo, Hn, Hs, Hi, Ho, Ht, Ha. reflexivity.
Qed.

End MoreBootstrapFacts.

(** ** What a configured value can do to the connection target *)

Lemma countByte_app c a b :
  countByte c (a ++ b) = (countByte c a + countByte c b)%nat.
Proof.
  induction a as [|x a IH]; [reflexivity|]. simpl. rewrite IH. lia.
Qed.

Lemma allBytes_app f a b :
  allBytes f (a ++ b) = allBytes f a && allBytes f b.
Proof.
  induction a as [|x a IH]; [reflexivity|]. simpl. rewrite IH.
  now rewrite andb_assoc.
Qed.

Lemma allBytes_countByte f c s :
  allBytes f s = true -> f c = false -> countByte c s = O.
Proof.
  intros Hs Hc. induction s as [|x s IH]; [reflexivity|].
  simpl in *. apply andb_true_iff in Hs as [Hx Hs].
  destruct (Ascii.eqb_spec x c) as [->|_]; [congruence|]. now apply IH.
Qed.

Lemma allBytes_weaken (f g : ascii -> bool) s :
  (forall c, f c = true -> g c = true) ->
  allBytes f s = true -> allBytes g s = true.
Proof.
  intros Hfg. induction s as [|x s IH]; [reflexivity|]. simpl.
  intros H. apply andb_true_iff in H as [Hx Hs].
  now rewrite (Hfg _ Hx), IH.
Qed.

Lemma QueryEscape_cons c s :
  QueryEscape (String c s) = QueryEscape (String c "") ++ QueryEscape s.
Proof.
  simpl. destruct (Ascii.eqb c " "); [reflexivity|].
  destruct (shouldEscape c); reflexivity.
Qed.

Lemma QueryEscape_byte_escaped c :
  allBytes escapedByte (QueryEscape (String c "")) = true.
Proof.
  destruct c as [[] [] [] [] [] [] [] []]; vm_compute; reflexivity.
Qed.

(** [url.QueryEscape] puts out nothing but unreserved bytes, percent signs
    and plus signs. *)
Lemma QueryEscape_escaped s : allBytes escapedByte (QueryEscape s) = true.
Proof.
  induction s as [|c s IH]; [reflexivity|].
  rewrite QueryEscape_cons, allBytes_app, QueryEscape_byte_escaped, IH.
  reflexivity.
Qed.

Lemma QueryEscape_count c s :
  escapedByte c = false -> countByte c (QueryEscape s) = O.
Proof.
  intros Hc. eapply allBytes_countByte; [apply QueryEscape_escaped|exact Hc].
Qed.

(** The encoded query of the connection target, pair by pair. *)
Lemma connURL_RawQuery cfg sslMode :
  getSSLMode cfg = Ok sslMode ->
  RawQuery (connURL cfg sslMode)
  = joinWith "&"
      ([("application_name=" ++ QueryEscape (ApplicationName cfg))%string]
       ++ (if isEmpty (Schema cfg) then []
           else [("search_path=" ++ QueryEscape (Schema cfg))%string])
       ++ (if EnableTLS cfg
           then [("sslcert=" ++ QueryEscape (ClientCert cfg))%string;
                 ("sslkey=" ++ QueryEscape (ClientKey cfg))%string]
           else [])
       ++ [("sslmode=" ++ sslMode)%string]
       ++ (if EnableTLS cfg
           then [("sslrootcert=" ++ QueryEscape (CACert cfg))%string]
           else [])
       ++ ["timezone=utc"])%list.
Proof.
  intros Hmode. unfold connURL, connValues. cbn [RawQuery].
  destruct (getSSLMode_cases cfg)
    as [[Etls E]|[(Etls & _ & E)|(Etls & A & B & C & E)]];
    rewrite E in Hmode; inversion Hmode; subst sslMode; clear Hmode;
    rewrite Etls; destruct (isEmpty (Schema cfg)); reflexivity.
Qed.

(** No configured value can add a parameter to the connection target or
    cut one in two: whatever the application name, the schema and the
    certificate paths contain, the encoded query has one equals sign per
    parameter and one ampersand between two parameters, and every other
    byte of it is an unreserved byte, a percent sign or a plus sign. *)
Theorem Open_target_is_injection_free cfg sslMode :
  getSSLMode cfg = Ok sslMode ->
  countByte "=" (RawQuery (connURL cfg sslMode)) = paramCount cfg
  /\ S (countByte "&" (RawQuery (connURL cfg sslMode))) = paramCount cfg
  /\ allBytes (fun c => escapedByte c || Ascii.eqb c "=" || Ascii.eqb c "&")
              (RawQuery (connURL cfg sslMode)) = true.
Proof.
  intros Hmode. rewrite (connURL_RawQuery cfg sslMode Hmode).
  assert (Hsafe : forall s,
            allBytes (fun c => escapedByte c || Ascii.eqb c "=" || Ascii.eqb c "&")
                     (QueryEscape s) = true).
  { intros s. eapply allBytes_weaken; [|apply QueryEscape_escaped].
    intros c ->. reflexivity. }
  unfold paramCount.
  destruct (getSSLMode_cases cfg)
    as [[Etls E]|[(Etls & _ & E)|(Etls & A & B & C & E)]];
    rewrite E in Hmode; inversion Hmode; subst sslMode; clear Hmode;
    rewrite Etls; destruct (isEmpty (Schema cfg));
    cbn [joinWith List.app]; repeat split;
    repeat (rewrite ?countByte_app, ?allBytes_app, ?Hsafe,
              ?(QueryEscape_count "="), ?(QueryEscape_count "&")
              by reflexivity; simpl);
    reflexivity.
Qed.

(* ================================================================== *)
(** * More on the query formatter *)

Lemma bindParams_absent ps : forall q,
  inString "?" q = false -> bindParams q ps = q.
Proof.
  induction ps as [|p ps IH]; intros q Hq; [reflexivity|].
  cbn [bindParams]. rewrite Replace_absent by assumption. now apply IH.
Qed.

Lemma bindParams_app ps1 ps2 : forall q,
  bindParams q (ps1 ++ ps2) = bindParams (bindParams q ps1) ps2.
Proof.
  induction ps1 as [|p ps1 IH]; intros q; [reflexivity|].
  cbn [bindParams List.app]. apply IH.
Qed.

Lemma filled_app a s l : filled (a ++ s) l = a ++ filled s l.
Proof.
  destruct l as [|[p s1] rest]; simpl; [reflexivity|].
  now rewrite append_assoc.
Qed.

Lemma filled_has_no_placeholder l : forall s0,
  inString "?" s0 = false ->
  Forall (fun ps => inString "?" (paramValue (fst ps)) = false
                    /\ inString "?" (snd ps) = false) l ->
  inString "?" (filled s0 l) = false.
Proof.
  induction l as [|[p s] rest IH]; intros s0 H0 Hall; [exact H0|].
  inversion Hall as [|? ? [Hp Hs] Hrest]; subst. simpl in Hp, Hs.
  cbn [filled]. rewrite !inString_app, H0, Hp. simpl. now apply IH.
Qed.

(** The loop on a query that goes on after the last bound placeholder. *)
Lemma bindParams_prefix l : forall s0 tail,
  inString "?" s0 = false ->
  Forall (fun ps => inString "?" (paramValue (fst ps)) = false
                    /\ inString "?" (snd ps) = false) l ->
  bindParams (template s0 l ++ tail) (map fst l) = filled s0 l ++ tail.
Proof.
  induction l as [|[p s] rest IH]; intros s0 tail H0 Hall; [reflexivity|].
  inversion Hall as [|? ? [Hp Hs] Hrest]; subst. simpl in Hp, Hs.
  cbn [template map fst bindParams filled].
  replace ((s0 ++ "?" ++ template s rest) ++ tail)
    with (s0 ++ String "?" (template s rest ++ tail))
    by (now rewrite !append_assoc).
  rewrite Replace_leftmost by assumption.
  replace (s0 ++ paramValue p ++ template s rest ++ tail)
    with (template ((s0 ++ paramValue p) ++ s) rest ++ tail)
    by (now rewrite template_app, !append_assoc).
  rewrite IH; [| |assumption].
  - now rewrite filled_app, !append_assoc.
  - now rewrite !inString_app, H0, Hp, Hs.
Qed.

(** Fewer values than placeholders: the values fill the first
    placeholders, each its own, and the rest of the query, question marks
    included, comes out as it went in. *)
Theorem bindParams_leaves_unbound_placeholders l s0 tail :
  inString "?" s0 = false ->
  Forall (fun ps => inString "?" (paramValue (fst ps)) = false
                    /\ inString "?" (snd ps) = false) l ->
  bindParams (template s0 l ++ "?" ++ tail) (map fst l)
  = filled s0 l ++ "?" ++ tail.
Proof. intros H0 Hall. now apply bindParams_prefix. Qed.

(** More values than placeholders: the values beyond the last placeholder
    are dropped without a trace. *)
Theorem bindParams_drops_surplus_values l s0 extra :
  inString "?" s0 = false ->
  Forall (fun ps => inString "?" (paramValue (fst ps)) = false
                    /\ inString "?" (snd ps) = false) l ->
  bindParams (template s0 l) (map fst l ++ extra) = filled s0 l.
Proof.
  intros H0 Hall. rewrite bindParams_app.
  rewrite bindParams_positional by assumption.
  apply bindParams_absent. now apply filled_has_no_placeholder.
Qed.

(* ================================================================== *)
(** * More on the executors *)

Section MoreExecutorFacts.

Context {Row T any : Type}.
Variable emptyStruct : any.
Variable zero : T.
Variable StructScan : Row -> T -> T * option error.

(** When the loop of [RunQuerySlice] ends without error, every row was
    mapped and the result is the accumulator followed by the images. *)
Lemma scanRows_ok_inv rs : forall slice s,
  scanRows zero StructScan rs slice = Ok s ->
  Forall (fun r => snd (StructScan r zero) = None) rs
  /\ s = (slice ++ map (fun r => fst (StructScan r zero)) rs)%list.
Proof.
  induction rs as [|r rest IH]; intros slice s; simpl.
  - intros [= <-]. split; [constructor|now rewrite app_nil_r].
  - destruct (StructScan r zero) as [v [e|]] eqn:E; [discriminate|].
    intros H. apply IH in H as [Hall ->]. split.
    + constructor; [simpl; now rewrite E|assumption].
    + simpl. now rewrite <- app_assoc.
Qed.

(** When the loop ends with an error, it is the mapper's error on one of
    the rows. *)
Lemma scanRows_err_inv rs : forall slice e,
  scanRows zero StructScan rs slice = Err e ->
  exists r, In r rs /\ snd (StructScan r zero) = Some e.
Proof.
  induction rs as [|r rest IH]; intros slice e; simpl; [discriminate|].
  destruct (StructScan r zero) as [v [e'|]] eqn:E.
  - intros [= <-]. exists r. rewrite E. auto.
  - intros H. apply IH in H as (r' & Hin & Hr'). exists r'. auto.
Qed.

(** When the executors return a nil error.  [RunQuery] does so exactly
    when the driver returned a cursor, the cursor delivered a first row
    and that row mapped; [RunQuerySlice] exactly when the driver returned
    a cursor and every row the cursor delivered mapped; [RunCUD] exactly
    when the driver returned a result.  The error that ended the
    iteration of a cursor is part of neither condition: a nil error of a
    read path says nothing about how the iteration ended. *)
Theorem executors_nil_error_characterised
  ctx (db : ExtContext Row any) query (dest : T) (dests : list T) (data : any) :
  (fst (RunQuery emptyStruct StructScan ctx db query dest) = None
   <-> exists rows r rest,
         NamedQueryContext db ctx query emptyStruct = Ok rows
         /\ pending rows = r :: rest
         /\ snd (StructScan r dest) = None)
  /\ (fst (RunQuerySlice emptyStruct zero StructScan ctx db query dests) = None
      <-> exists rows,
            NamedQueryContext db ctx query emptyStruct = Ok rows
            /\ Forall (fun r => snd (StructScan r zero) = None) (pending rows))
  /\ (RunCUD ctx db query data = None
      <-> exists res, NamedExecContext db ctx query data = Ok res).
Proof.
  split; [|split].
  - unfold RunQuery, Next.
    destruct (NamedQueryContext db ctx query emptyStruct) as [rows|err].
    + destruct (pending rows) as [|r rest] eqn:Hp.
      * split; [discriminate|]. intros (rows' & r & rest & [= <-] & H & _).
        congruence.
      * destruct (StructScan r dest) as [d' [e|]] eqn:E; simpl.
        -- split; [discriminate|].
           intros (rows' & r' & rest' & [= <-] & H & Hs).
           rewrite Hp in H. injection H as <- <-. rewrite E in Hs.
           discriminate.
        -- split; [|reflexivity]. intros _. exists rows, r, rest.
           rewrite E. auto.
    + split.
      * destruct err; try discriminate.
        destruct (String.eqb Code undefinedTable); discriminate.
      * intros (rows & r & rest & [=] & _).
  - unfold RunQuerySlice.
    destruct (NamedQueryContext db ctx query emptyStruct) as [rows|err].
    + destruct (scanRows zero StructScan (pending rows) []) as [s|e] eqn:E.
      * split; [|reflexivity]. intros _. exists rows. split; [reflexivity|].
        now apply scanRows_ok_inv in E.
      * split; [discriminate|]. intros (rows' & [= <-] & Hall).
        rewrite (scanRows_all_mapped zero StructScan _ [] Hall) in E.
        discriminate.
    + split.
      * destruct err; try discriminate.
        destruct (String.eqb Code undefinedTable); discriminate.
      * intros (rows & [=] & _).
  - unfold RunCUD.
    destruct (NamedExecContext db ctx query data) as [res|err].
    + split; eauto.
    + split.
      * destruct err; try discriminate.
        destruct (String.eqb Code undefinedTable); [discriminate|].
        destruct (String.eqb Code uniqueViolation); discriminate.
      * intros (res & [=]).
Qed.

(** The two read paths agree on the first row: when [RunQuerySlice]
    succeeds, [RunQuery] into a fresh destination returns the first
    element of its slice, or [ErrDBNotFound] when the slice is empty. *)
Theorem RunQuery_returns_head_of_RunQuerySlice
  ctx (db : ExtContext Row any) query (dests : list T) s :
  RunQuerySlice emptyStruct zero StructScan ctx db query dests = (None, s) ->
  RunQuery emptyStruct StructScan ctx db query zero
  = match s with
    | [] => (Some ErrDBNotFound, zero)
    | v :: _ => (None, v)
    end.
Proof.
  unfold RunQuerySlice, RunQuery, Next.
  destruct (NamedQueryContext db ctx query emptyStruct) as [rows|err].
  - destruct (scanRows zero StructScan (pending rows) []) as [s'|e] eqn:E;
      [|discriminate].
    intros [= <-]. apply scanRows_ok_inv in E as [Hall ->]. simpl.
    destruct (pending rows) as [|r rest]; [reflexivity|].
    inversion Hall as [|? ? Hr _]; subst. simpl.
    destruct (StructScan r zero) as [v err]. simpl in *. now subst err.
  - destruct err; try discriminate.
    destruct (String.eqb Code undefinedTable); discriminate.
Qed.

(** [RunQuerySlice] never reports how the iteration ended: two cursors
    that deliver the same rows give the same answer, whether the
    iteration ran to its end or broke off with an error, and the error
    the call returns, if any, is the translated error of the driver or
    the mapper's error on one of the rows. *)
Theorem RunQuerySlice_ignores_the_iteration_error
  ctx (db db' : ExtContext Row any) query query' (dests : list T) rows rows' :
  NamedQueryContext db ctx query emptyStruct = Ok rows ->
  NamedQueryContext db' ctx query' emptyStruct = Ok rows' ->
  pending rows = pending rows' ->
  RunQuerySlice emptyStruct zero StructScan ctx db query dests
  = RunQuerySlice emptyStruct zero StructScan ctx db' query' dests
  /\ (forall e,
        fst (RunQuerySlice emptyStruct zero StructScan ctx db query dests)
        = Some e ->
        exists r, In r (pending rows) /\ snd (StructScan r zero) = Some e).
Proof.
  intros H H' Hp. unfold RunQuerySlice. rewrite H, H', Hp. split;
    [reflexivity|].
  intros e. destruct (scanRows zero StructScan (pending rows') []) as [s|e']
    eqn:E; simpl; [discriminate|].
  intros [= <-]. now apply scanRows_err_inv in E.
Qed.

(** The three executors treat a driver error alike, except for the
    unique-violation code, which only [RunCUD] translates. *)
Theorem executors_agree_on_driver_errors
  ctx (db : ExtContext Row any) query (dest : T) (dests : list T) (data : any)
  err :
  NamedQueryContext db ctx query emptyStruct = Err err ->
  NamedExecContext db ctx query data = Err err ->
  (forall sev msg, err <> PgError sev uniqueViolation msg) ->
  fst (RunQuery emptyStruct StructScan ctx db query dest)
  = RunCUD ctx db query data
  /\ fst (RunQuerySlice emptyStruct zero StructScan ctx db query dests)
     = RunCUD ctx db query data.
Proof.
  intros Hq Hx Hnot. unfold RunQuery, RunQuerySlice, RunCUD.
  rewrite Hq, Hx. destruct err; try (split; reflexivity).
  destruct (String.eqb Code undefinedTable); [split; reflexivity|].
  destruct (String.eqb_spec Code uniqueViolation) as [->|_];
    [|split; reflexivity].
  exfalso. eapply Hnot. reflexivity.
Qed.

End MoreExecutorFacts.


(* ================================================================== *)
(** * Properties of the maskers *)

Lemma length_append (a b : string) :
  String.length (a ++ b) = (String.length a + String.length b)%nat.
Proof.
  induction a as [|x a IH]; [reflexivity|]. simpl. now rewrite IH.
Qed.

Lemma length_substring s : forall n m,
  (n + m <= String.length s)%nat -> String.length (substring n m s) = m.
Proof.
  induction s as [|x s IH]; intros n m H; simpl in *.
  - destruct n, m; simpl; lia.
  - destruct n as [|n].
    + destruct m as [|m]; [reflexivity|]. simpl. rewrite IH; lia.
    + apply IH. lia.
Qed.

Lemma length_repeatString c n :
  String.length (repeatString (String c "") n) = n.
Proof. induction n as [|n IH]; [reflexivity|]. simpl. now rewrite IH. Qed.

Lemma Split_length s c : List.length (Split s c) = S (countByte c s).
Proof.
  induction s as [|x s IH]; [reflexivity|]. simpl.
  destruct (Ascii.eqb x c); simpl; [now rewrite IH|].
  destruct (Split s c) as [|piece pieces]; simpl in *; lia.
Qed.

Lemma Split_absent s c : inString c s = false -> Split s c = [s].
Proof.
  induction s as [|x s IH]; [reflexivity|].
  rewrite inString_cons. intros H. apply orb_false_iff in H as [Hx Hs].
  simpl. rewrite Ascii.eqb_sym, Hx, (IH Hs). reflexivity.
Qed.

Lemma Split_at u c rest :
  inString c u = false -> Split (u ++ String c rest) c = u :: Split rest c.
Proof.
  induction u as [|x u IH]; intros H.
  - simpl. now rewrite Ascii.eqb_refl.
  - rewrite inString_cons in H. apply orb_false_iff in H as [Hx Hu].
    simpl. rewrite Ascii.eqb_sym, Hx, (IH Hu). reflexivity.
Qed.

(** The pieces of a split, joined by the separator, are the string, and
    no piece contains the separator. *)
Lemma Split_two s c u d :
  Split s c = [u; d] ->
  s = u ++ String c d /\ inString c u = false /\ inString c d = false.
Proof.
  revert u. induction s as [|x s IH]; intros u; [discriminate|].
  simpl. destruct (Ascii.eqb_spec x c) as [->|Hx].
  - intros [= <- Hd].
    assert (Hcount : countByte c s = O).
    { pose proof (Split_length s c) as L. rewrite Hd in L. simpl in L. lia. }
    assert (Hs : inString c s = false).
    { clear -Hcount. induction s as [|y s IH]; [reflexivity|].
      simpl in Hcount. rewrite inString_cons, Ascii.eqb_sym.
      destruct (Ascii.eqb y c); [discriminate|]. now apply IH. }
    rewrite (Split_absent s c Hs) in Hd. injection Hd as <-. auto.
  - destruct (Split s c) as [|piece pieces] eqn:E; [discriminate|].
    intros [= <- ->]. destruct (IH piece eq_refl) as (-> & Hp & Hd).
    repeat split; auto.
    rewrite inString_cons, Hp. apply Ascii.eqb_neq in Hx.
    now rewrite Ascii.eqb_sym, Hx.
Qed.

Lemma len_nonneg s : 0 <= len s.
Proof. unfold len. lia. Qed.

(** What [maskEmail] does to a value with exactly one at sign. *)
Lemma maskEmail_run arg u d :
  inString "@" u = false -> inString "@" d = false ->
  maskEmail arg (u ++ "@" ++ d)
  = Return
      ((if len u <? 3 then "*"
        else substring 0 (Z.to_nat (Z.max 1 (len u / 4))) u
             ++ repeatString "*" (Z.to_nat (len u - 2 * Z.max 1 (len u / 4)))
             ++ substring (Z.to_nat (len u - Z.max 1 (len u / 4)))
                          (Z.to_nat (Z.max 1 (len u / 4))) u)
       ++ "@" ++ d, None).
Proof.
  intros Hu Hd. unfold maskEmail.
  change (u ++ "@" ++ d) with (u ++ String "@" d).
  rewrite (Split_at u "@" d Hu), (Split_absent d "@" Hd).
  pose proof (len_nonneg u) as Hn.
  assert (Hk : (if len u / 4 <? 1 then 1 else len u / 4) = Z.max 1 (len u / 4)).
  { destruct (Z.ltb_spec (len u / 4) 1); lia. }
  cbv zeta. rewrite Hk.
  set (k := Z.max 1 (len u / 4)) in *.
  assert (Hk1 : 1 <= k) by lia.
  destruct (Z.ltb_spec (len u - 2 * k) 1) as [Hshort|Hlong].
  - destruct (Z.ltb_spec (len u) 3) as [_|H3]; [reflexivity|].
    exfalso. subst k. Z.div_mod_to_equations. lia.
  - destruct (Z.ltb_spec (len u) 3) as [H3|_];
      [exfalso; subst k; Z.div_mod_to_equations; lia|].
    unfold sliceString, Repeat.
    assert (E1 : (0 <=? 0) && (0 <=? k) && (k <=? len u) = true).
    { rewrite !andb_true_iff, !Z.leb_le. lia. }
    assert (E2 : (len u - 2 * k <? 0) = false) by (apply Z.ltb_ge; lia).
    assert (E3 : (0 <=? len u - k) && (len u - k <=? len u)
                 && (len u <=? len u) = true).
    { rewrite !andb_true_iff, !Z.leb_le. lia. }
    rewrite E1. cbn [go_bind]. rewrite E2. cbn [go_bind]. rewrite E3.
    cbn [go_bind].
    replace (k - 0) with k by lia.
    replace (len u - (len u - k)) with k by lia.
    reflexivity.
Qed.

(** [maskEmail] never panics, and it rejects exactly the values that do
    not hold one at sign: those get the empty string and the error
    [Invalid email format]; every other value gets a masked address and
    no error. *)
Theorem maskEmail_accepts_exactly_one_at_sign arg value :
  maskEmail arg value <> Panic
  /\ (countByte "@" value <> 1%nat ->
      maskEmail arg value
      = Return ("", Some (errorString "Invalid email format")))
  /\ (countByte "@" value = 1%nat ->
      exists masked, maskEmail arg value = Return (masked, None)).
Proof.
  assert (Hcases :
            (countByte "@" value <> 1%nat
             /\ maskEmail arg value
                = Return ("", Some (errorString "Invalid email format")))
            \/ (countByte "@" value = 1%nat
                /\ exists masked, maskEmail arg value = Return (masked, None))).
  { pose proof (Split_length value "@") as L.
    destruct (Split value "@") as [|u [|d [|x rest]]] eqn:E.
    - simpl in L. lia.
    - left. split; [simpl in L; lia|]. unfold maskEmail. now rewrite E.
    - right. split; [simpl in L; lia|].
      destruct (Split_two value "@" u d E) as (-> & Hu & Hd).
      eexists. apply (maskEmail_run arg u d Hu Hd).
    - left. split; [simpl in L; lia|]. unfold maskEmail. now rewrite E. }
  destruct Hcases as [[Hn E]|[Hn [masked E]]]; rewrite E;
    (split; [discriminate|]); split; intros H; try contradiction; eauto.
Qed.

(** What [maskEmail] shows of an address [u@d].  The domain is kept as it
    is.  A user name of at most two bytes, the empty one included,
    becomes a single asterisk.  A longer one keeps its first and last [k]
    bytes, [k] being a quarter of its length and at least one, and has
    every byte between them replaced by an asterisk: the masked address
    is as long as the address, and at least half of the user name,
    rounded down, is hidden. *)
Theorem maskEmail_hides_the_middle_of_the_user_name arg u d :
  inString "@" u = false -> inString "@" d = false ->
  exists masked,
    maskEmail arg (u ++ "@" ++ d) = Return (masked ++ "@" ++ d, None)
    /\ (len u < 3 -> masked = "*")
    /\ (3 <= len u ->
        let k := Z.max 1 (len u / 4) in
        masked
        = substring 0 (Z.to_nat k) u
          ++ repeatString "*" (Z.to_nat (len u - 2 * k))
          ++ substring (Z.to_nat (len u - k)) (Z.to_nat k) u
        /\ len masked = len u
        /\ len u / 2 <= len u - 2 * k).
Proof.
  intros Hu Hd. rewrite (maskEmail_run arg u d Hu Hd).
  eexists. split; [reflexivity|].
  pose proof (len_nonneg u) as Hn.
  destruct (Z.ltb_spec (len u) 3) as [H3|H3]; split; intros H; try lia;
    try reflexivity.
  cbv zeta. set (k := Z.max 1 (len u / 4)).
  assert (Hk : 1 <= k /\ 2 * k + 1 <= len u)
    by (subst k; Z.div_mod_to_equations; lia).
  split; [reflexivity|].
  split; [|subst k; Z.div_mod_to_equations; lia].
  unfold len in *. rewrite !length_append, length_repeatString.
  rewrite !length_substring by lia. lia.
Qed.

Lemma Index_range s c : -1 <= Index s c < len s.
Proof.
  unfold len. induction s as [|x s IH]; [simpl; lia|].
  cbn [Index String.length]. destruct (Ascii.eqb x c); [lia|].
  destruct (Z.ltb_spec (Index s c) 0); lia.
Qed.

Lemma countryCodeLenOf_range value :
  5 <= countryCodeLenOf value <= Z.max 5 (len value + 4).
Proof.
  unfold countryCodeLenOf.
  pose proof (Index_range (substring 1 (String.length value - 1) value) "+")
    as [Hlo Hhi].
  assert (Hlen : len (substring 1 (String.length value - 1) value)
                 <= Z.max 0 (len value - 1)).
  { unfold len. destruct value as [|x value]; [simpl; lia|].
    rewrite length_substring; cbn [String.length]; lia. }
  lia.
Qed.

(** [maskPhone], step by step: it returns when the value is longer than
    [countryCodeLen] and panics otherwise. *)
Lemma maskPhone_run arg value :
  maskPhone arg value
  = if countryCodeLenOf value <? len value
    then Return
           (substring 0 (Z.to_nat (countryCodeLenOf value)) value
            ++ repeatString "*"
                 (Z.to_nat (len value - countryCodeLenOf value - 1))
            ++ substring (Z.to_nat (len value - 2)) 2 value, None)
    else Panic.
Proof.
  pose proof (countryCodeLenOf_range value) as Hc.
  pose proof (len_nonneg value) as Hn.
  unfold maskPhone, sliceString.
  destruct (Z.le_gt_cases 1 (len value)) as [H1|H0].
  - assert (E1 : (0 <=? 1) && (1 <=? len value) && (len value <=? len value)
                 = true).
    { rewrite !andb_true_iff, !Z.leb_le. lia. }
    rewrite E1. cbn [go_bind].
    replace (Z.to_nat 1) with 1%nat by reflexivity.
    replace (Z.to_nat (len value - 1)) with (String.length value - 1)%nat
      by (unfold len; lia).
    fold (countryCodeLenOf value). cbv zeta.
    destruct (Z.ltb_spec (countryCodeLenOf value) 1) as [Hlt|_]; [lia|].
    destruct (Z.ltb_spec (countryCodeLenOf value) (len value)) as [Hok|Hbad].
    + assert (E2 : (0 <=? 0) && (0 <=? countryCodeLenOf value)
                   && (countryCodeLenOf value <=? len value) = true).
      { rewrite !andb_true_iff, !Z.leb_le. lia. }
      assert (E3 : (0 <=? len value - 2) && (len value - 2 <=? len value)
                   && (len value <=? len value) = true).
      { rewrite !andb_true_iff, !Z.leb_le. lia. }
      rewrite E2. cbn [go_bind]. rewrite E3. cbn [go_bind]. unfold Repeat.
      destruct (Z.ltb_spec (len value - countryCodeLenOf value - 1) 0);
        [lia|].
      cbn [go_bind].
      replace (countryCodeLenOf value - 0) with (countryCodeLenOf value) by lia.
      replace (Z.to_nat (len value - (len value - 2))) with 2%nat by lia.
      reflexivity.
    + destruct ((0 <=? 0) && (0 <=? countryCodeLenOf value)
                && (countryCodeLenOf value <=? len value)) eqn:E2;
        [|reflexivity].
      cbn [go_bind].
      assert (E3 : (0 <=? len value - 2) && (len value - 2 <=? len value)
                   && (len value <=? len value) = true).
      { rewrite !andb_true_iff, !Z.leb_le in *. lia. }
      rewrite E3. cbn [go_bind]. unfold Repeat.
      destruct (Z.ltb_spec (len value - countryCodeLenOf value - 1) 0);
        [reflexivity|].
      rewrite !andb_true_iff, !Z.leb_le in E2. lia.
  - assert (E1 : (0 <=? 1) && (1 <=? len value) && (len value <=? len value)
                 = false).
    { rewrite !andb_false_iff, !Z.leb_gt. lia. }
    rewrite E1. cbn [go_bind].
    destruct (Z.ltb_spec (countryCodeLenOf value) (len value)); [lia|].
    reflexivity.
Qed.

(** [maskPhone] panics on every value of fewer than six bytes, the empty
    one included, and more generally on every value no longer than the
    country code it works out: five bytes, or six more than the index of
    the first plus sign after the first byte. *)
Theorem maskPhone_panics_on_short_values arg value :
  (len value < 6 -> maskPhone arg value = Panic)
  /\ (maskPhone arg value = Panic <-> len value <= countryCodeLenOf value).
Proof.
  pose proof (countryCodeLenOf_range value) as Hc.
  rewrite maskPhone_run.
  destruct (Z.ltb_spec (countryCodeLenOf value) (len value)).
  - split; [lia|]. split; [discriminate|lia].
  - split; [reflexivity|]. split; [lia|reflexivity].
Qed.

(** What [maskPhone] returns when it returns.  There is no error.  The
    output shows the first [countryCodeLen] bytes of the value, at least
    five, and its last two bytes, with one asterisk for every byte in
    between and one more: it is one byte longer than the value. *)
Theorem maskPhone_shows_head_and_last_two_bytes arg value out err :
  maskPhone arg value = Return (out, err) ->
  err = None
  /\ 5 <= countryCodeLenOf value < len value
  /\ out
     = substring 0 (Z.to_nat (countryCodeLenOf value)) value
       ++ repeatString "*" (Z.to_nat (len value - countryCodeLenOf value - 1))
       ++ substring (Z.to_nat (len value - 2)) 2 value
  /\ len out = len value + 1.
Proof.
  pose proof (countryCodeLenOf_range value) as Hc.
  rewrite maskPhone_run.
  destruct (Z.ltb_spec (countryCodeLenOf value) (len value)); [|discriminate].
  intros [= <- <-]. repeat split; try lia.
  unfold len in *. rewrite !length_append, length_repeatString.
  rewrite !length_substring by lia. lia.
Qed.

(** ** [maskName] *)

Lemma splitWhere_nonempty p s : splitWhere p s <> [].
Proof.
  destruct s as [|x s]; simpl; [discriminate|].
  destruct (p x); [discriminate|].
  destruct (splitWhere p s); discriminate.
Qed.

Lemma splitWhere_at p a sp b :
  p sp = true ->
  splitWhere p (a ++ String sp b) = (splitWhere p a ++ splitWhere p b)%list.
Proof.
  intros Hsp. induction a as [|x a IH]; simpl.
  - now rewrite Hsp.
  - rewrite IH. destruct (p x); [reflexivity|].
    pose proof (splitWhere_nonempty p a) as Hne.
    destruct (splitWhere p a) as [|piece pieces]; [congruence|reflexivity].
Qed.

Lemma splitWhere_absent p w :
  allBytes (fun c => negb (p c)) w = true -> splitWhere p w = [w].
Proof.
  induction w as [|x w IH]; [reflexivity|]. simpl.
  intros H. apply andb_true_iff in H as [Hx Hw].
  apply negb_true_iff in Hx. rewrite Hx, (IH Hw). reflexivity.
Qed.

(** No piece holds a separator, and what is true of every byte of the
    string is true of every byte of every piece. *)
Lemma splitWhere_pieces p q s :
  allBytes q s = true ->
  Forall (fun w => allBytes (fun c => negb (p c)) w = true
                   /\ allBytes q w = true) (splitWhere p s).
Proof.
  induction s as [|x s IH]; intros Hq; simpl.
  - repeat constructor.
  - simpl in Hq. apply andb_true_iff in Hq as [Hx Hs]. specialize (IH Hs).
    destruct (p x) eqn:Hpx.
    + constructor; [split; reflexivity|assumption].
    + destruct (splitWhere p s) as [|piece pieces]; [repeat constructor|].
      * simpl. now rewrite Hpx.
      * simpl. now rewrite Hx.
      * inversion IH as [|? ? [H1 H2] Hrest]; subst.
        constructor; [|assumption]. simpl. now rewrite Hpx, Hx, H1, H2.
Qed.

Lemma fieldsASCII_at a b :
  fieldsASCII (a ++ String " " b) = (fieldsASCII a ++ fieldsASCII b)%list.
Proof.
  unfold fieldsASCII. rewrite splitWhere_at by reflexivity. apply filter_app.
Qed.

Lemma fieldsASCII_word w : isWord w -> fieldsASCII w = [w].
Proof.
  intros (Hne & Hsp & _). unfold fieldsASCII.
  rewrite (splitWhere_absent _ _ Hsp). simpl.
  unfold isEmpty. destruct (String.eqb_spec w ""); [contradiction|reflexivity].
Qed.

(** The fields of a name written with single spaces are its words. *)
Lemma fieldsASCII_spaced rest : forall first,
  Forall isWord rest ->
  fieldsASCII (spaced first rest) = (fieldsASCII first ++ rest)%list.
Proof.
  induction rest as [|w ws IH]; intros first Hall; simpl.
  - now rewrite app_nil_r.
  - inversion Hall as [|? ? Hw Hws]; subst.
    rewrite (IH _ Hws). change (first ++ " " ++ w) with (first ++ String " " w).
    rewrite fieldsASCII_at, (fieldsASCII_word w Hw), <- app_assoc.
    reflexivity.
Qed.

(** The fields of a string of ASCII bytes are words. *)
Lemma fieldsASCII_words s :
  allBytes isASCII s = true -> Forall isWord (fieldsASCII s).
Proof.
  intros Hs. unfold fieldsASCII.
  pose proof (splitWhere_pieces asciiSpace isASCII s Hs) as Hall.
  induction Hall as [|w ws [H1 H2] _ IH]; simpl; [constructor|].
  unfold isEmpty at 1. destruct (String.eqb_spec w "") as [->|Hne]; simpl;
    [exact IH|].
  constructor; [|exact IH]. repeat split; assumption.
Qed.

Lemma allBytes_repeatString f c n :
  f c = true -> allBytes f (repeatString (String c "") n) = true.
Proof.
  intros Hc. induction n as [|n IH]; [reflexivity|]. simpl. now rewrite Hc.
Qed.

Lemma starred_word w : w <> "" -> isWord (starred w).
Proof.
  intros Hne. unfold starred. repeat split.
  - destruct w as [|x w]; [contradiction|discriminate].
  - now apply allBytes_repeatString.
  - now apply allBytes_repeatString.
Qed.

Lemma starred_starred w : starred (starred w) = starred w.
Proof. unfold starred. now rewrite length_repeatString. Qed.

Lemma allBytes_spaced f rest : forall first,
  f " "%char = true -> allBytes f first = true ->
  Forall (fun w => allBytes f w = true) rest ->
  allBytes f (spaced first rest) = true.
Proof.
  induction rest as [|w ws IH]; intros first Hsp Hf Hall; simpl; [exact Hf|].
  inversion Hall as [|? ? Hw Hws]; subst. apply IH; auto.
  rewrite !allBytes_app, Hf. simpl. now rewrite Hsp, Hw.
Qed.

Lemma maskRest_run parts : forall maskedName,
  maskRest maskedName parts = Return (spaced maskedName (map starred parts)).
Proof.
  induction parts as [|part rest IH]; intros maskedName; [reflexivity|].
  cbn [maskRest map spaced]. unfold Repeat.
  destruct (Z.ltb_spec (len part) 0) as [Hneg|_];
    [pose proof (len_nonneg part); lia|].
  cbn [go_bind]. rewrite IH. unfold starred, len. now rewrite Nat2Z.id.
Qed.

Section MaskNameFacts.

Variable FieldsFunc_IsSpace : string -> list string.

(** What [maskName] returns for a value of ASCII bytes. *)
Lemma maskName_run arg value :
  allBytes isASCII value = true ->
  maskName FieldsFunc_IsSpace arg value
  = Return (match fieldsASCII value with
            | first :: second :: more =>
                spaced first (map starred (second :: more))
            | _ => value
            end, None).
Proof.
  intros Hascii. unfold maskName, Fields. rewrite Hascii. cbv zeta.
  destruct (fieldsASCII value) as [|first [|second more]]; try reflexivity.
  replace (Z.of_nat (List.length (first :: second :: more)) <? 2) with false
    by (symmetry; apply Z.ltb_ge; cbn [List.length]; lia).
  rewrite maskRest_run. reflexivity.
Qed.

(** [maskName] on a name of ASCII bytes.  A name of fewer than two words
    comes back as it is, white space included.  A longer one comes back
    as its first word followed by one run of asterisks per later word,
    single spaces between them; read again as a name, the output has as
    many words as the value, the same first word, and every later word
    replaced by asterisks of the same length. *)
Theorem maskName_keeps_the_shape_of_the_name arg value :
  allBytes isASCII value = true ->
  exists out,
    maskName FieldsFunc_IsSpace arg value = Return (out, None)
    /\ ((List.length (fieldsASCII value) < 2)%nat -> out = value)
    /\ (forall first rest,
          fieldsASCII value = first :: rest -> rest <> [] ->
          out = spaced first (map starred rest)
          /\ allBytes isASCII out = true
          /\ fieldsASCII out = first :: map starred rest).
Proof.
  intros Hascii. rewrite (maskName_run arg value Hascii).
  eexists. split; [reflexivity|].
  pose proof (fieldsASCII_words value Hascii) as Hwords.
  destruct (fieldsASCII value) as [|first [|second more]]; split;
    try reflexivity; try (simpl; lia).
  - intros first rest [=] Hne.
  - intros first' rest [= <- <-] Hne. contradiction.
  - intros first' rest [= <- <-] _.
    inversion Hwords as [|? ? Hfirst Hrest]; subst.
    assert (Hstars : Forall isWord (map starred (second :: more))).
    { apply Forall_map. eapply Forall_impl; [|exact Hrest].
      intros w (Hne & _). now apply starred_word. }
    split; [reflexivity|]. split.
    + apply allBytes_spaced; [reflexivity|apply Hfirst|].
      eapply Forall_impl; [|exact Hstars]. intros w Hw. apply Hw.
    + rewrite (fieldsASCII_spaced _ _ Hstars), (fieldsASCII_word _ Hfirst).
      reflexivity.
Qed.

(** Masking a masked name changes nothing. *)
Theorem maskName_is_idempotent arg arg' value out err :
  allBytes isASCII value = true ->
  maskName FieldsFunc_IsSpace arg value = Return (out, err) ->
  maskName FieldsFunc_IsSpace arg' out = Return (out, err).
Proof.
  intros Hascii. rewrite (maskName_run arg value Hascii).
  pose proof (fieldsASCII_words value Hascii) as Hwords.
  destruct (fieldsASCII value) as [|first [|second more]] eqn:E;
    intros [= <- <-].
  - rewrite (maskName_run arg' value Hascii), E. reflexivity.
  - rewrite (maskName_run arg' value Hascii), E. reflexivity.
  - inversion Hwords as [|? ? Hfirst Hrest]; subst.
    assert (Hstars : Forall isWord (map starred (second :: more))).
    { apply Forall_map. eapply Forall_impl; [|exact Hrest].
      intros w (Hne & _). now apply starred_word. }
    pose proof (fieldsASCII_spaced _ first Hstars) as Hfields.
    rewrite (fieldsASCII_word _ Hfirst) in Hfields.
    assert (Hout : allBytes isASCII
                     (spaced first (map starred (second :: more))) = true).
    { apply allBytes_spaced; [reflexivity|apply Hfirst|].
      eapply Forall_impl; [|exact Hstars]. intros w Hw. apply Hw. }
    change (maskName FieldsFunc_IsSpace arg'
              (spaced first (map starred (second :: more)))
            = Return (spaced first (map starred (second :: more)), None)).
    rewrite (maskName_run arg' _ Hout), Hfields.
    cbn [List.app map]. rewrite starred_starred, map_map.
    rewrite (map_ext (fun w => starred (starred w)) starred starred_starred).
    reflexivity.
Qed.

End MaskNameFacts.

(* ================================================================== *)
(** * The further statements on the sample collaborators *)

Lemma StatusCheck_waits_for_the_deadline_witness :
  exists D pe probes,
    ctxDeadline (effectiveCtx context_Background (now Sample.w0)) = Some D
    /\ (ctxDeadline context_Background = None
        -> D = now Sample.w0 + 5 * Second)
    /\ Some (pingFailure context_DeadlineExceeded Sample.connRefused)
       = Some (pingFailure context_DeadlineExceeded pe)
    /\ lastError probes = Some pe
    /\ [EvPing 0 (Some Sample.connRefused); EvSleep 1000000000;
        EvPing 1002000000 (Some Sample.connRefused); EvSleep 2000000000;
        EvPing 3004000000 (Some Sample.connRefused); EvSleep 3000000000]
       = (trace Sample.w0 ++ retryTrace 1 probes)%list
    /\ D <= 6006000000
    /\ now Sample.w0 + backoffTotal 1 (List.length probes) <= 6006000000.
Proof.
  apply (StatusCheck_waits_for_the_deadline 3 context_Background
           Sample.deadPool Sample.w0 _ (mkWorld 6006000000 _)
           deadPool_alwaysFails eq_refl eq_refl).
Defined.

Lemma StatusCheck_nil_means_round_trip_witness :
  exists probes t took,
    PingContext Sample.livePool
      (effectiveCtx context_Background (now Sample.w0)) t = (None, took)
    /\ ctxErr (effectiveCtx context_Background (now Sample.w0))
              (t + Z.of_N took) = None
    /\ fst (QueryRowScan Sample.livePool
              (effectiveCtx context_Background (now Sample.w0))
              "SELECT true" (t + Z.of_N took)) = None
    /\ [EvPing 0 None; EvQueryRow "SELECT true"]
       = (trace Sample.w0 ++ retryTrace 1 probes
          ++ [EvPing t None; EvQueryRow "SELECT true"])%list.
Proof.
  apply (StatusCheck_nil_means_round_trip 1 context_Background
           Sample.livePool Sample.w0 (mkWorld 2000000 _) eq_refl).
Defined.

Lemma StatusCheck_late_ping_reports_the_context_witness :
  StatusCheck 1 Fixture.expiring Sample.livePool Sample.w0
  = Some (Some context_DeadlineExceeded, mkWorld 1000000 [EvPing 0 None]).
Proof.
  apply (StatusCheck_late_ping_reports_the_context 0 Fixture.expiring
           Sample.livePool Sample.w0 1000000%N context_DeadlineExceeded
           eq_refl eq_refl).
Defined.

Lemma Open_hands_out_only_checked_pools_witness :
  exists sslMode probes t,
    getSSLMode Sample.plain = Ok sslMode
    /\ Fixture.liveOpener "pgx" (Sample.render (connURL Sample.plain sslMode))
       = Ok Sample.livePool
    /\ [EvSqlxOpen "pgx"
          "postgres://localhost:5432/lab?application_name=lab+api&sslmode=disable&timezone=utc";
        EvSetMaxIdleConns 2; EvSetMaxOpenConns 4;
        EvSetConnMaxIdleTime 60000000000; EvPing 0 None;
        EvQueryRow "SELECT true"]
       = (trace Sample.w0
          ++ [EvSqlxOpen "pgx" (Sample.render (connURL Sample.plain sslMode));
              EvSetMaxIdleConns (MaxIdleConns Sample.plain);
              EvSetMaxOpenConns (MaxOpenConns Sample.plain);
              EvSetConnMaxIdleTime (IdleConnTimeout Sample.plain)]
          ++ retryTrace 1 probes
          ++ [EvPing t None; EvQueryRow "SELECT true"])%list.
Proof.
  apply (Open_hands_out_only_checked_pools Sample.render Fixture.liveOpener 1
           Sample.plain Sample.w0 Sample.livePool (mkWorld 2000000 _)
           eq_refl).
Defined.

Lemma Open_unreachable_database_witness :
  exists pe probes w',
    Open Sample.render Sample.opener 3 Sample.plain Sample.w0
    = Some (Err (wrapError
                   ("database status check: context deadline exceeded"
                    ++ " : database: " ++ Error pe)
                   (pingFailure context_DeadlineExceeded pe)), w')
    /\ lastError probes = Some pe
    /\ (1 <= List.length probes <= 3)%nat
    /\ now Sample.w0 + 5 * Second <= now w'
    /\ trace w'
       = (trace Sample.w0
          ++ [EvSqlxOpen "pgx" (Sample.render (connURL Sample.plain "disable"));
              EvSetMaxIdleConns (MaxIdleConns Sample.plain);
              EvSetMaxOpenConns (MaxOpenConns Sample.plain);
              EvSetConnMaxIdleTime (IdleConnTimeout Sample.plain)]
          ++ retryTrace 1 probes)%list.
Proof.
  apply (Open_unreachable_database Sample.render Sample.opener 3
           Sample.plain Sample.w0 "disable" Sample.deadPool
           eq_refl eq_refl deadPool_alwaysFails (le_n 3)).
Defined.

Lemma Open_ignores_certificates_without_TLS_witness :
  Open Sample.render Sample.opener 3 Sample.plain Sample.w0
  = Open Sample.render Sample.opener 3 Fixture.plainWithCerts Sample.w0.
Proof.
  apply (Open_ignores_certificates_without_TLS Sample.render Sample.opener 3
           Sample.plain Fixture.plainWithCerts Sample.w0
           eq_refl eq_refl eq_refl eq_refl eq_refl eq_refl eq_refl eq_refl
           eq_refl eq_refl eq_refl eq_refl).
Defined.

Lemma Open_target_is_injection_free_witness :
  countByte "=" (RawQuery (connURL Fixture.hostile "require")) = 7%nat
  /\ countByte "&" (RawQuery (connURL Fixture.hostile "require")) = 6%nat
  /\ RawQuery (connURL Fixture.hostile "require")
     = "application_name=lab%26sslmode%3Ddisable&search_path=public&sslcert=%2Fcert.pem&sslkey=%2Fkey.pem&sslmode=require&sslrootcert=%2Fca.pem&timezone=utc".
Proof.
  pose proof (Open_target_is_injection_free Fixture.hostile "require"
                eq_refl) as (Heq & Hamp & _).
  split; [exact Heq|]. split; [|reflexivity].
  exact (f_equal Nat.pred Hamp).
Defined.

Lemma bindParams_leaves_unbound_placeholders_witness :
  bindParams "a = ? AND b = ?" [pString "abc"] = "a = 'abc' AND b = ?".
Proof.
  apply (bindParams_leaves_unbound_placeholders
           [(pString "abc", " AND b = ")] "a = " "" eq_refl).
  repeat constructor.
Defined.

Lemma bindParams_drops_surplus_values_witness :
  bindParams "a = ? AND b = 1" [pString "abc"; pString "lost"]
  = "a = 'abc' AND b = 1".
Proof.
  apply (bindParams_drops_surplus_values
           [(pString "abc", " AND b = 1")] "a = " [pString "lost"] eq_refl).
  repeat constructor.
Defined.

Lemma RunQuery_returns_head_of_RunQuerySlice_witness :
  RunQuery tt Sample.scan context_Background Sample.db "three" 0 = (None, 7).
Proof.
  apply (RunQuery_returns_head_of_RunQuerySlice tt 0 Sample.scan
           context_Background Sample.db "three" [1] [7; 8; 9] eq_refl).
Defined.

Lemma RunQuerySlice_ignores_the_iteration_error_witness :
  RunQuerySlice tt 0 Sample.scan context_Background Sample.db "three" [1]
  = RunQuerySlice tt 0 Sample.scan context_Background Fixture.brokenCursor
                  "any" [1].
Proof.
  apply (proj1 (RunQuerySlice_ignores_the_iteration_error tt 0 Sample.scan
                  context_Background Sample.db Fixture.brokenCursor
                  "three" "any" [1]
                  (mkRows [7; 8; 9] None)
                  (mkRows [7; 8; 9] (Some Sample.connRefused))
                  eq_refl eq_refl eq_refl)).
Defined.

Lemma executors_agree_on_driver_errors_witness :
  fst (RunQuery tt Sample.scan context_Background Sample.db "missing" 0)
  = RunCUD context_Background Sample.db "missing" tt
  /\ fst (RunQuerySlice tt 0 Sample.scan context_Background Sample.db
                        "missing" [1])
     = RunCUD context_Background Sample.db "missing" tt.
Proof.
  apply (executors_agree_on_driver_errors tt 0 Sample.scan
           context_Background Sample.db "missing" 0 [1] tt Sample.noTable
           eq_refl eq_refl).
  intros sev msg H. discriminate H.
Defined.

Lemma maskEmail_hides_the_middle_of_the_user_name_witness :
  exists masked,
    maskEmail "" "jonathan@example.com"
    = Return (masked ++ "@example.com", None)
    /\ (len "jonathan" < 3 -> masked = "*")
    /\ (3 <= len "jonathan" ->
        let k := Z.max 1 (len "jonathan" / 4) in
        masked
        = substring 0 (Z.to_nat k) "jonathan"
          ++ repeatString "*" (Z.to_nat (len "jonathan" - 2 * k))
          ++ substring (Z.to_nat (len "jonathan" - k)) (Z.to_nat k) "jonathan"
        /\ len masked = len "jonathan"
        /\ len "jonathan" / 2 <= len "jonathan" - 2 * k).
Proof.
  apply (maskEmail_hides_the_middle_of_the_user_name "" "jonathan"
           "example.com" eq_refl eq_refl).
Defined.

Lemma maskPhone_shows_head_and_last_two_bytes_witness :
  "+5691******78"
  = substring 0 (Z.to_nat (countryCodeLenOf "+56912345678")) "+56912345678"
    ++ repeatString "*"
         (Z.to_nat (len "+56912345678" - countryCodeLenOf "+56912345678" - 1))
    ++ substring (Z.to_nat (len "+56912345678" - 2)) 2 "+56912345678"
  /\ len "+5691******78" = len "+56912345678" + 1.
Proof.
  apply (proj2 (proj2 (maskPhone_shows_head_and_last_two_bytes ""
                         "+56912345678" "+5691******78" None eq_refl))).
Defined.

Lemma maskName_keeps_the_shape_of_the_name_witness :
  exists out,
    maskName Fixture.noFields "" "Maria  Jose Perez " = Return (out, None)
    /\ ((List.length (fieldsASCII "Maria  Jose Perez ") < 2)%nat
        -> out = "Maria  Jose Perez ")
    /\ (forall first rest,
          fieldsASCII "Maria  Jose Perez " = first :: rest -> rest <> [] ->
          out = spaced first (map starred rest)
          /\ allBytes isASCII out = true
          /\ fieldsASCII out = first :: map starred rest).
Proof.
  apply (maskName_keeps_the_shape_of_the_name Fixture.noFields ""
           "Maria  Jose Perez " eq_refl).
Defined.

Lemma maskName_is_idempotent_witness :
  maskName Fixture.noFields "" "Maria **** *****"
  = Return ("Maria **** *****", None).
Proof.
  apply (maskName_is_idempotent Fixture.noFields "" "" "Maria  Jose Perez "
           "Maria **** *****" None eq_refl eq_refl).
Defined.
